(** * Invoicing dashboard: data-access and mutation layer

    A shallow embedding of [app/lib/data.ts] (the query module) and
    [app/lib/actions.ts] (the form-action mutations), with the pieces of the
    JavaScript runtime, of the schema validator and of the ORM they call.

    - [JS]      : IEEE-754 binary64 numbers, [Number(string)], string helpers.
    - [Prisma]  : the relational store and the ORM operations that are used.
    - [Zod]     : the invoice schema and [safeParse] on the form fields.
    - [Data]    : the query functions.
    - [Actions] : createInvoice, updateInvoice, deleteInvoice, authenticate.

    Strings are sequences of ASCII code units; case folding and white space
    are the ASCII ones. *)

From Stdlib Require Import ZArith List String Ascii Bool Lia.
From Stdlib Require Import Floats.SpecFloat.
From Stdlib Require Import Sorting.Sorted Sorting.Permutation.
Import ListNotations.

Local Open Scope string_scope.
Local Open Scope Z_scope.

(* ================================================================== *)
(** ** The JavaScript runtime the sources rely on *)
Module JS.

(** A JavaScript number is a binary64 float: 53 bits of precision,
    infinities at exponent 1024. *)
Definition number := spec_float.
Definition prec : Z := 53.
Definition emax : Z := 1024.

Definition NaN : number := S754_nan.
Definition pzero : number := S754_zero false.

(** The number denoted by an integer (exact below 2^53). *)
Definition of_Z (z : Z) : number := binary_normalize prec emax z 0 false.

Definition isNaN (x : number) : bool :=
  match x with S754_nan => true | _ => false end.

(** [x * y], [x / y], [x <= y] of the language. *)
Definition mul (x y : number) : number := SFmul prec emax x y.
Definition div (x y : number) : number := SFdiv prec emax x y.
Definition le (x y : number) : bool := SFleb x y.

(** The integer a number denotes, when it denotes one
    ([Number.isInteger]). *)
Definition to_integer (x : number) : option Z :=
  match x with
  | S754_zero _ => Some 0
  | S754_finite s m e =>
      let v := if s then Z.neg m else Z.pos m in
      if 0 <=? e then Some (v * 2 ^ e)
      else if Z.pos m mod 2 ^ (- e) =? 0 then Some (v / 2 ^ (- e))
      else None
  | _ => None
  end.

(** *** StringToNumber *)

Definition code (c : ascii) : Z := Z.of_nat (nat_of_ascii c).

(** TAB, LF, VT, FF, CR and SPACE. *)
Definition is_white (c : ascii) : bool :=
  let n := code c in ((9 <=? n) && (n <=? 13)) || (n =? 32).

Fixpoint drop_white (cs : list ascii) : list ascii :=
  match cs with
  | c :: cs' => if is_white c then drop_white cs' else cs
  | [] => []
  end.

Definition trim (cs : list ascii) : list ascii :=
  rev (drop_white (rev (drop_white cs))).

Definition digit_val (base : Z) (c : ascii) : option Z :=
  let n := code c in
  let v := if (48 <=? n) && (n <=? 57) then Some (n - 48)
           else if (97 <=? n) && (n <=? 102) then Some (n - 87)
           else if (65 <=? n) && (n <=? 70) then Some (n - 55)
           else None in
  match v with
  | Some d => if d <? base then Some d else None
  | None => None
  end.

(** The longest prefix of digits in [base]: its value (most significant
    first, continuing from [acc]), how many digits, and what follows. *)
Fixpoint span_digits (base : Z) (acc : Z) (n : Z) (cs : list ascii)
  : Z * Z * list ascii :=
  match cs with
  | c :: cs' =>
      match digit_val base c with
      | Some d => span_digits base (acc * base + d) (n + 1) cs'
      | None => (acc, n, cs)
      end
  | [] => (acc, n, [])
  end.

(** The binary64 nearest to [m * 10^e10], ties to even; [neg] is the
    sign. *)
Definition round_decimal (neg : bool) (m : Z) (e10 : Z) : number :=
  match m with
  | Z.pos p =>
      if 0 <=? e10
      then binary_normalize prec emax
             (if neg then - (m * 10 ^ e10) else m * 10 ^ e10) 0 false
      else match 10 ^ (- e10) with
           | Z.pos d =>
               SFdiv prec emax (S754_finite neg p 0) (S754_finite false d 0)
           | _ => NaN
           end
  | _ => S754_zero neg
  end.

Definition is_exp_mark (c : ascii) : bool :=
  (code c =? 101) || (code c =? 69).

(** ExponentPart_opt followed by the end of the literal. *)
Definition parse_exponent (cs : list ascii) : option Z :=
  match cs with
  | [] => Some 0
  | c :: cs' =>
      if is_exp_mark c then
        let '(neg, ds) :=
          match cs' with
          | s :: r => if code s =? 45 then (true, r)
                      else if code s =? 43 then (false, r)
                      else (false, cs')
          | [] => (false, cs')
          end in
        match span_digits 10 0 0 ds with
        | (v, n, []) => if 0 <? n then Some (if neg then - v else v) else None
        | _ => None
        end
      else None
  end.

Definition Infinity_lit : list ascii := list_ascii_of_string "Infinity".

(** StrUnsignedDecimalLiteral. *)
Definition parse_unsigned_decimal (neg : bool) (cs : list ascii) : number :=
  if list_eq_dec ascii_dec cs Infinity_lit then S754_infinity neg
  else
    let '(ip, n1, r1) := span_digits 10 0 0 cs in
    let '(m, n2, r2) :=
      match r1 with
      | dot :: r => if code dot =? 46 then span_digits 10 ip 0 r
                    else (ip, 0, r1)
      | [] => (ip, 0, r1)
      end in
    if 0 <? n1 + n2 then
      match parse_exponent r2 with
      | Some e => round_decimal neg m (e - n2)
      | None => NaN
      end
    else NaN.

(** 0x, 0o and 0b literals: no sign, at least one digit. *)
Definition parse_non_decimal (cs : list ascii) : option number :=
  match cs with
  | z :: p :: ds =>
      if code z =? 48 then
        let base :=
          let n := code p in
          if (n =? 120) || (n =? 88) then Some 16
          else if (n =? 111) || (n =? 79) then Some 8
          else if (n =? 98) || (n =? 66) then Some 2
          else None in
        match base with
        | Some b =>
            Some match span_digits b 0 0 ds with
                 | (v, n, []) => if 0 <? n then of_Z v else NaN
                 | _ => NaN
                 end
        | None => None
        end
      else None
  | _ => None
  end.

(** [Number(s)] for a string [s]. *)
Definition Number (s : string) : number :=
  match trim (list_ascii_of_string s) with
  | [] => pzero
  | (c :: r) as cs =>
      match parse_non_decimal cs with
      | Some v => v
      | None =>
          if code c =? 45 then parse_unsigned_decimal true r
          else if code c =? 43 then parse_unsigned_decimal false r
          else parse_unsigned_decimal false cs
      end
  end.

(** *** Strings *)

Definition to_lower_ascii (c : ascii) : ascii :=
  let n := nat_of_ascii c in
  if ((65 <=? n) && (n <=? 90))%nat then ascii_of_nat (n + 32) else c.

Fixpoint toLowerCase (s : string) : string :=
  match s with
  | EmptyString => EmptyString
  | String c s' => String (to_lower_ascii c) (toLowerCase s')
  end.

(** [hay.includes(needle)]. *)
Fixpoint includes (needle hay : string) : bool :=
  if String.prefix needle hay then true
  else match hay with
       | EmptyString => false
       | String _ hay' => includes needle hay'
       end.

(** [s.split("T")[0]]: the characters before the first "T". *)
Fixpoint split_T_0 (s : string) : string :=
  match s with
  | EmptyString => EmptyString
  | String c s' =>
      if Ascii.eqb c "T"%char then EmptyString else String c (split_T_0 s')
  end.

End JS.

(* ================================================================== *)
(** ** The relational store behind the ORM client

    Tables are lists of rows in the order the store keeps them. Only the
    operations the sources call are modelled, with the faults that depend
    on their arguments and on the tables; a store that is unreachable is
    outside the model. *)
Module Prisma.

Record Customer := {
  cust_id : string;
  cust_name : string;
  cust_email : string;
  cust_image_url : string }.

(** [amount] is an Int column (minor currency units); [status] and [date]
    are text columns. *)
Record Invoice := {
  inv_id : string;
  inv_customer_id : string;
  inv_amount : Z;
  inv_status : string;
  inv_date : string }.

Record Revenue := {
  rev_month : string;
  rev_revenue : Z }.

Record Store := {
  customer : list Customer;
  invoice : list Invoice;
  revenue : list Revenue }.

Variant RequestError :=
  | ValidationError       (* an argument of the wrong type or range *)
  | RecordNotFound        (* update or delete of a row that is absent *)
  | ForeignKeyViolation   (* customer_id names no customer *)
  | UniqueViolation       (* the id is already taken *)
  | InconsistentResult.   (* a required relation without its row *)

Inductive Result (A : Type) :=
  | Ok (a : A)
  | Fault (e : RequestError).
Arguments Ok {A} a.
Arguments Fault {A} e.

Definition bind {A B} (r : Result A) (k : A -> Result B) : Result B :=
  match r with
  | Ok a => k a
  | Fault e => Fault e
  end.

(** A JavaScript number given for an Int column or an Int filter has to be
    an integer that fits 32 bits. *)
Definition int_arg (x : JS.number) : Result Z :=
  match JS.to_integer x with
  | Some z =>
      if (- 2 ^ 31 <=? z) && (z <? 2 ^ 31) then Ok z
      else Fault ValidationError
  | None => Fault ValidationError
  end.

(** *** Filters *)

Variant StringFilter :=
  | Contains (q : string) (insensitive : bool)
  | Equals (q : string).

Definition string_matches (f : StringFilter) (s : string) : bool :=
  match f with
  | Contains q true => JS.includes (JS.toLowerCase q) (JS.toLowerCase s)
  | Contains q false => JS.includes q s
  | Equals q => String.eqb s q
  end.

(** One entry of the [OR] array of an invoice filter. An [equals] that is
    [undefined] is [amount_equals None]. *)
Variant InvoiceCond :=
  | customer_name (f : StringFilter)
  | customer_email (f : StringFilter)
  | amount_equals (v : option JS.number)
  | date_is (f : StringFilter)
  | status_is (f : StringFilter).

(** [{ OR: [...] }] *)
Definition InvoiceWhere := list InvoiceCond.

Definition customer_of (st : Store) (i : Invoice) : option Customer :=
  find (fun c => String.eqb (cust_id c) (inv_customer_id i)) (customer st).

Definition on_customer (st : Store) (p : Customer -> bool) (i : Invoice)
  : bool :=
  match customer_of st i with
  | Some c => p c
  | None => false
  end.

(** The row predicate of one entry; [None] for an entry whose only
    condition is [undefined], which the client leaves out of the query. *)
Definition cond_pred (st : Store) (c : InvoiceCond)
  : Result (option (Invoice -> bool)) :=
  match c with
  | customer_name f =>
      Ok (Some (on_customer st (fun c => string_matches f (cust_name c))))
  | customer_email f =>
      Ok (Some (on_customer st (fun c => string_matches f (cust_email c))))
  | amount_equals None => Ok None
  | amount_equals (Some v) =>
      bind (int_arg v) (fun z => Ok (Some (fun i => inv_amount i =? z)))
  | date_is f => Ok (Some (fun i => string_matches f (inv_date i)))
  | status_is f => Ok (Some (fun i => string_matches f (inv_status i)))
  end.

(** A row satisfies [OR] when it satisfies one of the entries that are
    left. *)
Fixpoint where_pred (st : Store) (w : InvoiceWhere)
  : Result (Invoice -> bool) :=
  match w with
  | [] => Ok (fun _ => false)
  | c :: w' =>
      bind (cond_pred st c) (fun oc =>
      bind (where_pred st w') (fun p =>
      Ok (fun i => match oc with
                   | Some pc => pc i || p i
                   | None => p i
                   end)))
  end.

(** *** [orderBy: { date: "desc" }]

    Rows with the same date keep the order of the table. *)
Fixpoint insert_desc (x : Invoice) (l : list Invoice) : list Invoice :=
  match l with
  | [] => [x]
  | y :: l' =>
      if String.ltb (inv_date x) (inv_date y) then y :: insert_desc x l'
      else x :: l
  end.

Fixpoint sort_date_desc (l : list Invoice) : list Invoice :=
  match l with
  | [] => []
  | x :: l' => insert_desc x (sort_date_desc l')
  end.

(** [include: { customer: true }] on the required relation. *)
Fixpoint include_customer (st : Store) (l : list Invoice)
  : Result (list (Invoice * Customer)) :=
  match l with
  | [] => Ok []
  | i :: l' =>
      match customer_of st i with
      | Some c => bind (include_customer st l') (fun r => Ok ((i, c) :: r))
      | None => Fault InconsistentResult
      end
  end.

(** *** Reads *)

(** The rows a filter selects, before ordering and paging. *)
Definition invoice_matching (st : Store) (w : InvoiceWhere)
  : Result (list Invoice) :=
  bind (where_pred st w) (fun p => Ok (filter p (invoice st))).

(** [invoice.findMany({ where, include: { customer: true },
    orderBy: { date: "desc" }, take, skip })]; a negative [skip] is
    refused. *)
Definition invoice_findMany (st : Store) (w : InvoiceWhere)
    (take : nat) (skip : Z) : Result (list (Invoice * Customer)) :=
  if skip <? 0 then Fault ValidationError
  else
    bind (invoice_matching st w) (fun rows =>
    include_customer st
      (firstn take (skipn (Z.to_nat skip) (sort_date_desc rows)))).

(** [invoice.count({ where })] *)
Definition invoice_count (st : Store) (w : InvoiceWhere) : Result nat :=
  bind (invoice_matching st w) (fun rows => Ok (List.length rows)).

Definition has_id (id : string) (i : Invoice) : bool :=
  String.eqb (inv_id i) id.

(** [invoice.findUnique({ where: { id } })] *)
Definition invoice_findUnique (st : Store) (id : string)
  : Result (option Invoice) :=
  Ok (find (has_id id) (invoice st)).

(** [revenue.findMany()] *)
Definition revenue_findMany (st : Store) : Result (list Revenue) :=
  Ok (revenue st).

(** *** Writes *)

Definition customer_exists (st : Store) (cid : string) : bool :=
  existsb (fun c => String.eqb (cust_id c) cid) (customer st).

Definition with_invoices (st : Store) (l : list Invoice) : Store :=
  {| customer := customer st; invoice := l; revenue := revenue st |}.

(** [invoice.create({ data: { customer_id, amount, status, date } })];
    [new_id] is the id the column default generates for the row. *)
Definition invoice_create (new_id : string) (st : Store)
    (customer_id : string) (amount : JS.number) (status date : string)
  : Result Store :=
  bind (int_arg amount) (fun cents =>
  if negb (customer_exists st customer_id) then Fault ForeignKeyViolation
  else if existsb (has_id new_id) (invoice st) then Fault UniqueViolation
  else Ok (with_invoices st
             (invoice st ++
              [{| inv_id := new_id; inv_customer_id := customer_id;
                  inv_amount := cents; inv_status := status;
                  inv_date := date |}]))).

(** The row [id] with the three columns of an update replaced. *)
Fixpoint set_row (id : string) (customer_id : string) (cents : Z)
    (status : string) (l : list Invoice) : option (list Invoice) :=
  match l with
  | [] => None
  | i :: l' =>
      if has_id id i
      then Some ({| inv_id := inv_id i; inv_customer_id := customer_id;
                    inv_amount := cents; inv_status := status;
                    inv_date := inv_date i |} :: l')
      else option_map (cons i) (set_row id customer_id cents status l')
  end.

(** [invoice.update({ where: { id },
    data: { customer_id, amount, status } })] *)
Definition invoice_update (st : Store) (id : string)
    (customer_id : string) (amount : JS.number) (status : string)
  : Result Store :=
  bind (int_arg amount) (fun cents =>
  match set_row id customer_id cents status (invoice st) with
  | None => Fault RecordNotFound
  | Some l =>
      if customer_exists st customer_id then Ok (with_invoices st l)
      else Fault ForeignKeyViolation
  end).

Fixpoint remove_row (id : string) (l : list Invoice)
  : option (list Invoice) :=
  match l with
  | [] => None
  | i :: l' =>
      if has_id id i then Some l'
      else option_map (cons i) (remove_row id l')
  end.

(** [invoice.delete({ where: { id } })] *)
Definition invoice_delete (st : Store) (id : string) : Result Store :=
  match remove_row id (invoice st) with
  | None => Fault RecordNotFound
  | Some l => Ok (with_invoices st l)
  end.

(** Every invoice names a customer of the store. *)
Definition fk_ok (st : Store) : bool :=
  forallb (fun i => customer_exists st (inv_customer_id i)) (invoice st).

End Prisma.

(* ================================================================== *)
(** ** The invoice schema ([InvoiceSchema] without [id] and [date]) *)
Module Zod.

Variant Status := pending | paid.

Definition status_text (s : Status) : string :=
  match s with
  | pending => "pending"
  | paid => "paid"
  end.

(** The values a successful parse narrows to. *)
Record InvoiceData := {
  customer_id : string;
  amount : JS.number;
  status : Status }.

(** [error.flatten().fieldErrors]: a field without an issue has no key. *)
Record FieldErrors := {
  customer_id_errors : option (list string);
  amount_errors : option (list string);
  status_errors : option (list string) }.

Variant SafeParse :=
  | success (data : InvoiceData)
  | failure (fieldErrors : FieldErrors).

Definition customer_message : string := "Please select a customer.".
Definition amount_message : string :=
  "Please enter an amount greater than $0.".
Definition status_message : string := "Please select an invoice status.".

(** The validator's own message for a number that is NaN. *)
Definition nan_message : string := "Expected number, received nan".

(** The validator's own message for a string outside the enumeration. *)
Definition enum_message (received : string) : string :=
  "Invalid enum value. Expected 'pending' | 'paid', received '"
    ++ received ++ "'".

(** A form field is a string, or [null] ([None]) when the form has no such
    entry. *)
Definition field := option string.

(** [z.string({ invalid_type_error })] *)
Definition parse_customer_id (input : field) : string + list string :=
  match input with
  | Some s => inl s
  | None => inr [customer_message]
  end.

(** [Number(input)] of [z.coerce]; [Number(null)] is 0. *)
Definition coerce_number (input : field) : JS.number :=
  match input with
  | Some s => JS.Number s
  | None => JS.pzero
  end.

(** [z.coerce.number().gt(0, { message })] *)
Definition parse_amount (input : field) : JS.number + list string :=
  let v := coerce_number input in
  if JS.isNaN v then inr [nan_message]
  else if JS.le v JS.pzero then inr [amount_message]
  else inl v.

(** [z.enum(["pending", "paid"], { invalid_type_error })]: the message
    given is the one for an input that is no string. *)
Definition parse_status (input : field) : Status + list string :=
  match input with
  | None => inr [status_message]
  | Some s =>
      if String.eqb s "pending" then inl pending
      else if String.eqb s "paid" then inl paid
      else inr [enum_message s]
  end.

Definition issues {A} (r : A + list string) : option (list string) :=
  match r with
  | inl _ => None
  | inr l => Some l
  end.

(** [safeParse({ customer_id, amount, status })] *)
Definition safeParse (customer_id amount status : field) : SafeParse :=
  match parse_customer_id customer_id, parse_amount amount,
        parse_status status with
  | inl c, inl a, inl s =>
      success {| customer_id := c; amount := a; status := s |}
  | rc, ra, rs =>
      failure {| customer_id_errors := issues rc;
                 amount_errors := issues ra;
                 status_errors := issues rs |}
  end.

End Zod.

(* ================================================================== *)
(** ** Errors and completions of the asynchronous functions *)

Record Error := { message : string }.

Definition new_Error (msg : string) : Error := {| message := msg |}.

(** What awaiting a call ends in: a value, or a thrown error. *)
Inductive Completion (A : Type) :=
  | Return (a : A)
  | Throw (e : Error).
Arguments Return {A} a.
Arguments Throw {A} e.

(* ================================================================== *)
(** ** The query module

    [noStore()], the demonstration delay of [fetchRevenue] and the logging
    in the [catch] blocks do not bear on what is returned or thrown, and
    are left out. *)
Module Data.
Import Prisma.

Definition ITEMS_PER_PAGE : Z := 6.

(** [Math.ceil(a / b)] for a count [a] and a positive integer [b]: the
    double quotient of a row count by 6 has the ceiling of the exact one. *)
Definition Math_ceil_div (a b : Z) : Z := - ((- a) / b).

Definition insensitive (query : string) : StringFilter :=
  Contains query true.

(** The [where] argument that [fetchFilteredInvoices] and
    [fetchInvoicesPages] both build. *)
Definition invoice_where (query : string) : InvoiceWhere :=
  [ customer_name (insensitive query);
    customer_email (insensitive query);
    amount_equals (if JS.isNaN (JS.Number query) then None
                   else Some (JS.Number query));
    date_is (Equals query);
    status_is (insensitive query) ].

Record InvoicesTable := {
  id : string;
  amount : Z;
  date : string;
  status : string;
  name : string;
  email : string;
  image_url : string }.

Definition table_row (r : Invoice * Customer) : InvoicesTable :=
  let (invoice, customer) := r in
  {| id := inv_id invoice;
     amount := inv_amount invoice;
     date := inv_date invoice;
     status := inv_status invoice;
     name := cust_name customer;
     email := cust_email customer;
     image_url := cust_image_url customer |}.

Definition fetchRevenue (st : Store) : Completion (list Revenue) :=
  match revenue_findMany st with
  | Ok revenueData => Return revenueData
  | Fault _ => Throw (new_Error "Failed to fetch revenue data.")
  end.

Definition fetchFilteredInvoices (st : Store) (query : string)
    (currentPage : Z) : Completion (list InvoicesTable) :=
  let offset := (currentPage - 1) * ITEMS_PER_PAGE in
  match invoice_findMany st (invoice_where query)
          (Z.to_nat ITEMS_PER_PAGE) offset with
  | Ok invoices => Return (map table_row invoices)
  | Fault _ => Throw (new_Error "Failed to fetch invoices.")
  end.

Definition fetchInvoicesPages (st : Store) (query : string)
  : Completion Z :=
  match invoice_count st (invoice_where query) with
  | Ok count =>
      let totalPages := Math_ceil_div (Z.of_nat count) ITEMS_PER_PAGE in
      Return totalPages
  | Fault _ => Throw (new_Error "Failed to fetch total number of invoices.")
  end.

Record InvoiceForm := {
  form_id : string;
  form_customer_id : string;
  form_amount : JS.number;
  form_status : string }.

Definition fetchInvoiceById (st : Store) (id : string)
  : Completion (option InvoiceForm) :=
  match invoice_findUnique st id with
  | Ok (Some invoice) =>
      Return (Some {| form_id := inv_id invoice;
                      form_customer_id := inv_customer_id invoice;
                      form_amount :=
                        JS.div (JS.of_Z (inv_amount invoice)) (JS.of_Z 100);
                      form_status := inv_status invoice |})
  | Ok None => Return None
  | Fault _ => Throw (new_Error "Failed to fetch invoice by ID.")
  end.

End Data.

(* ================================================================== *)
(** ** The form actions

    An action runs against a [World]: the store, and the log of the paths
    it has asked to revalidate. *)
Module Actions.
Import Prisma.

(** The submitted form: entries in order, [get] returns the first value of
    a name or [null]. *)
Definition FormData := list (string * string).

Fixpoint get (name : string) (formData : FormData) : option string :=
  match formData with
  | [] => None
  | (k, v) :: rest => if String.eqb k name then Some v else get name rest
  end.

Record State := {
  errors : option Zod.FieldErrors;
  state_message : option string }.

(** The store and the paths handed to [revalidatePath], latest first. *)
Record World := {
  db : Store;
  revalidated : list string }.

(** What the server supplies to a create: the clock reading as
    [toISOString()] prints it, and the id the store generates. *)
Record Env := {
  now_iso : string;
  generated_id : string }.

(** An action returns a state to the form, or [redirect] takes over. *)
Variant Outcome :=
  | Returned (s : State)
  | Redirect (url : string).

Definition invoices_path : string := "/dashboard/invoices".

Definition revalidatePath (path : string) (w : World) (db' : Store)
  : World :=
  {| db := db'; revalidated := path :: revalidated w |}.

Definition createInvoice (env : Env) (prevState : State)
    (formData : FormData) (w : World) : Outcome * World :=
  match Zod.safeParse (get "customer_id" formData) (get "amount" formData)
          (get "status" formData) with
  | Zod.failure fieldErrors =>
      (Returned {| errors := Some fieldErrors;
                   state_message :=
                     Some "Missing Fields. Failed to Create Invoice." |}, w)
  | Zod.success data =>
      let amountInCents := JS.mul (Zod.amount data) (JS.of_Z 100) in
      let date := JS.split_T_0 (now_iso env) in
      match invoice_create (generated_id env) (db w)
              (Zod.customer_id data) amountInCents
              (Zod.status_text (Zod.status data)) date with
      | Fault _ =>
          (Returned {| errors := None;
                       state_message :=
                         Some "Database Error: Failed to Create Invoice." |},
           w)
      | Ok db' =>
          (Redirect invoices_path, revalidatePath invoices_path w db')
      end
  end.

Definition updateInvoice (id : string) (prevState : State)
    (formData : FormData) (w : World) : Outcome * World :=
  match Zod.safeParse (get "customer_id" formData) (get "amount" formData)
          (get "status" formData) with
  | Zod.failure fieldErrors =>
      (Returned {| errors := Some fieldErrors;
                   state_message :=
                     Some "Missing Fields. Failed to Update Invoice." |}, w)
  | Zod.success data =>
      let amountInCents := JS.mul (Zod.amount data) (JS.of_Z 100) in
      match invoice_update (db w) id (Zod.customer_id data) amountInCents
              (Zod.status_text (Zod.status data)) with
      | Fault _ =>
          (Returned {| errors := None;
                       state_message :=
                         Some "Database Error: Failed to Update Invoice." |},
           w)
      | Ok db' =>
          (Redirect invoices_path, revalidatePath invoices_path w db')
      end
  end.

(** Returns nothing ([None]) after a delete, a message after a fault. *)
Definition deleteInvoice (id : string) (w : World)
  : option State * World :=
  match invoice_delete (db w) id with
  | Ok db' => (None, revalidatePath invoices_path w db')
  | Fault _ =>
      (Some {| errors := None;
               state_message :=
                 Some "Database Error: Failed to Delete Invoice." |}, w)
  end.

(** [Object.fromEntries(formData)]: a name keeps the place of its first
    entry and the value of its last. *)
Fixpoint set_entry (k v : string) (o : list (string * string))
  : list (string * string) :=
  match o with
  | [] => [(k, v)]
  | (k', v') :: o' =>
      if String.eqb k' k then (k, v) :: o' else (k', v') :: set_entry k v o'
  end.

Definition fromEntries (formData : FormData) : list (string * string) :=
  fold_left (fun o e => set_entry (fst e) (snd e) o) formData [].

(** The identity provider: it resolves, or rejects with an error. *)
Variant SignIn := resolved | rejected (error : Error).

Definition Provider := string -> list (string * string) -> SignIn.

Definition authenticate (signIn : Provider) (prevState : option string)
    (formData : FormData) : Completion (option string) :=
  match signIn "credentials" (fromEntries formData) with
  | resolved => Return None
  | rejected error =>
      if JS.includes "CredentialsSignin" (message error)
      then Return (Some "CredentialSignin")
      else Throw error
  end.

End Actions.

(* ================================================================== *)
(** ** Readings of the properties, and sample data *)

Import Prisma Data Actions.

(** [needle] occurs in [hay]. *)
Definition occurs (needle hay : string) : Prop :=
  exists before after, hay = before ++ needle ++ after.

(** [needle] occurs in [hay] when letter case is ignored. *)
Definition occurs_nocase (needle hay : string) : Prop :=
  occurs (JS.toLowerCase needle) (JS.toLowerCase hay).

(** The four text branches of the invoice filter: the query occurs in the
    customer's name or e-mail or in the status, or it is the date. *)
Definition text_match (st : Store) (query : string) (i : Invoice) : Prop :=
  (exists c, customer_of st i = Some c /\
             (occurs_nocase query (cust_name c) \/
              occurs_nocase query (cust_email c)))
  \/ inv_date i = query
  \/ occurs_nocase query (inv_status i).

(** Later rows carry earlier or equal dates. *)
Definition date_desc (a b : Invoice) : Prop :=
  String.leb (inv_date b) (inv_date a) = true.

(** A joined row carries the customer its invoice names. *)
Definition joined_in (st : Store) (r : Invoice * Customer) : Prop :=
  customer_of st (fst r) = Some (snd r).


(** Orders on the month key of the revenue rows: as text, and by the place
    of the three-letter abbreviation in the year. *)
Definition month_asc (a b : Revenue) : Prop :=
  String.leb (rev_month a) (rev_month b) = true.

Definition month_desc (a b : Revenue) : Prop :=
  String.leb (rev_month b) (rev_month a) = true.

Definition calendar_index (m : string) : nat :=
  let fix go (names : list string) (k : nat) : nat :=
    match names with
    | [] => O
    | x :: rest => if String.eqb x m then k else go rest (S k)
    end in
  go ["Jan"; "Feb"; "Mar"; "Apr"; "May"; "Jun";
      "Jul"; "Aug"; "Sep"; "Oct"; "Nov"; "Dec"] 1%nat.

Definition month_calendar (a b : Revenue) : Prop :=
  (calendar_index (rev_month a) <= calendar_index (rev_month b))%nat.

(** The predicate the store evaluates for a query that is no number. *)
Definition text_pred (st : Store) (query : string) (i : Invoice) : bool :=
  on_customer st
    (fun c => string_matches (insensitive query) (cust_name c)) i
  || (on_customer st
        (fun c => string_matches (insensitive query) (cust_email c)) i
      || (string_matches (Equals query) (inv_date i)
          || (string_matches (insensitive query) (inv_status i) || false))).

(** Each invoice with the customer it names; an invoice naming none is left
    out. *)
Definition join_rows (st : Store) (l : list Invoice)
  : list (Invoice * Customer) :=
  flat_map (fun i => match customer_of st i with
                     | Some c => [(i, c)]
                     | None => []
                     end) l.

(** A status field that is neither "pending" nor "paid". *)
Definition invalid_status (input : Zod.field) : Prop :=
  input <> Some "pending" /\ input <> Some "paid".

(** The two edits leave the entries named "id" and "date" out of account. *)
Definition without_id_date (formData : FormData) : FormData :=
  filter (fun e => negb (String.eqb (fst e) "id" || String.eqb (fst e) "date"))
         formData.

Module Sample.

Definition alice : Customer :=
  {| cust_id := "c1"; cust_name := "Alice Smith";
     cust_email := "alice@example.com"; cust_image_url := "/alice.png" |}.

Definition bob : Customer :=
  {| cust_id := "c2"; cust_name := "Bob Stone";
     cust_email := "bob@example.com"; cust_image_url := "/bob.png" |}.

Definition i1 : Invoice :=
  {| inv_id := "i1"; inv_customer_id := "c1"; inv_amount := 30;
     inv_status := "pending"; inv_date := "2024-01-02" |}.

Definition i2 : Invoice :=
  {| inv_id := "i2"; inv_customer_id := "c2"; inv_amount := 1999;
     inv_status := "paid"; inv_date := "2024-03-01" |}.

Definition i3 : Invoice :=
  {| inv_id := "i3"; inv_customer_id := "c1"; inv_amount := 500;
     inv_status := "paid"; inv_date := "2024-02-01" |}.

Definition store : Store :=
  {| customer := [alice; bob];
     invoice := [i1; i2; i3];
     revenue := [ {| rev_month := "Feb"; rev_revenue := 1800 |};
                  {| rev_month := "Mar"; rev_revenue := 2200 |};
                  {| rev_month := "Jan"; rev_revenue := 2000 |} ] |}.

Definition world : World := {| db := store; revalidated := [] |}.

Definition bill (n : Z) (id date : string) : Invoice :=
  {| inv_id := id; inv_customer_id := "c1"; inv_amount := n;
     inv_status := "pending"; inv_date := date |}.

(** Eight invoices: two pages. *)
Definition ledger : Store :=
  {| customer := [alice];
     invoice := [ bill 100 "b1" "2024-01-05"; bill 200 "b2" "2024-01-09";
                  bill 300 "b3" "2024-01-01"; bill 400 "b4" "2024-01-09";
                  bill 500 "b5" "2024-01-03"; bill 600 "b6" "2024-01-08";
                  bill 700 "b7" "2024-01-02"; bill 800 "b8" "2024-01-07" ];
     revenue := [] |}.

Definition env : Env :=
  {| now_iso := "2024-05-06T10:11:12.000Z"; generated_id := "i4" |}.

Definition no_state : State :=
  {| errors := None; state_message := None |}.

Definition form (customer_id amount status : string) : FormData :=
  [("customer_id", customer_id); ("amount", amount); ("status", status)].

(** A provider that turns every sign-in down with the given message. *)
Definition refuse (msg : string) : Provider :=
  fun _ _ => rejected (new_Error msg).

End Sample.

(* ================================================================== *)
(** ** The rest of the query module *)
Module Queries.

(** *** Store operations these queries use *)

(** [invoice.findMany({ select: { ..., customer }, orderBy: { date: "desc" },
    take })] *)
Definition invoice_findMany_latest (st : Store) (take : nat)
  : Result (list (Invoice * Customer)) :=
  include_customer st (firstn take (sort_date_desc (invoice st))).

(** [invoice.count()] and [customer.count()] *)
Definition invoice_count_all (st : Store) : Result nat :=
  Ok (List.length (invoice st)).

Definition customer_count (st : Store) : Result nat :=
  Ok (List.length (customer st)).

(** One group of [groupBy({ by: ["status"], _sum: { amount: true } })]. *)
Record StatusGroup := {
  group_status : string;
  group_sum_amount : option Z }.

Fixpoint add_to_group (status : string) (amount : Z) (gs : list StatusGroup)
  : list StatusGroup :=
  match gs with
  | [] => [{| group_status := status; group_sum_amount := Some amount |}]
  | g :: gs' =>
      if String.eqb (group_status g) status
      then {| group_status := status;
              group_sum_amount :=
                Some (match group_sum_amount g with
                      | Some a => a + amount
                      | None => amount
                      end) |} :: gs'
      else g :: add_to_group status amount gs'
  end.

Definition invoice_groupBy_status (st : Store) : Result (list StatusGroup) :=
  Ok (fold_left (fun gs i => add_to_group (inv_status i) (inv_amount i) gs)
        (invoice st) []).

(** The [invoices] relation of a customer. *)
Definition invoices_of (st : Store) (c : Customer) : list Invoice :=
  filter (fun i => String.eqb (inv_customer_id i) (cust_id c)) (invoice st).

(** *** Rows returned *)

Record CustomerSelect := {
  sel_name : string;
  sel_image_url : string;
  sel_email : string }.

Record LatestInvoice := {
  latest_amount : string;
  latest_id : string;
  latest_customer : CustomerSelect;
  latest_name : string;
  latest_image_url : string;
  latest_email : string }.

Record CardData := {
  numberOfCustomers : nat;
  numberOfInvoices : nat;
  totalPaidInvoices : string;
  totalPendingInvoices : string }.

Record CustomerField := {
  field_id : string;
  field_name : string }.

Record InvoiceSelect := {
  sel_status : string;
  sel_amount : Z }.

(** A row of the customer query: the columns selected, [_count.invoices]
    and the selected columns of the invoices. *)
Record CustomerRow := {
  row_id : string;
  row_name : string;
  row_email : string;
  row_image_url : string;
  row_count_invoices : nat;
  row_invoices : list InvoiceSelect }.

Record FormattedCustomersTable := {
  fc_id : string;
  fc_name : string;
  fc_email : string;
  fc_image_url : string;
  fc_total_invoices : nat;
  fc_total_pending : string;
  fc_total_paid : string }.

Record User := {
  user_id : string;
  user_name : string;
  user_email : string;
  user_password : string }.

Definition customer_row (st : Store) (c : Customer) : CustomerRow :=
  {| row_id := cust_id c;
     row_name := cust_name c;
     row_email := cust_email c;
     row_image_url := cust_image_url c;
     row_count_invoices := List.length (invoices_of st c);
     row_invoices :=
       map (fun i => {| sel_status := inv_status i;
                        sel_amount := inv_amount i |}) (invoices_of st c) |}.

(** [invoices.filter(i => i.status === status)
            .reduce((sum, i) => sum + i.amount, 0)] *)
Definition total_with_status (status : string) (invoices : list InvoiceSelect)
  : Z :=
  fold_left (fun sum invoice => sum + sel_amount invoice)
    (filter (fun invoice => String.eqb (sel_status invoice) status) invoices)
    0.

(** [groups.find(g => g.status === status)?._sum.amount ?? 0] *)
Definition group_total (status : string) (groups : list StatusGroup) : Z :=
  match find (fun g => String.eqb (group_status g) status) groups with
  | Some g => match group_sum_amount g with
              | Some a => a
              | None => 0
              end
  | None => 0
  end.

(** [{ OR: [{ name: { contains, insensitive } },
            { email: { contains, insensitive } }] }] *)
Definition customer_where (query : string) (c : Customer) : bool :=
  string_matches (insensitive query) (cust_name c)
  || (string_matches (insensitive query) (cust_email c) || false).

Section Externals.

(** [formatCurrency] of [./utils], which turns an amount in minor units
    into the text shown; the queries only pass amounts through it. *)
Variable formatCurrency : Z -> string.

(** The order in which the store sorts text: [text_leb a b] when [a] comes
    no later than [b]. *)
Variable text_leb : string -> string -> bool.

(** [orderBy: { name: "asc" }]; customers of the same name keep the order
    of the table. *)
Fixpoint insert_name_asc (x : Customer) (l : list Customer) : list Customer :=
  match l with
  | [] => [x]
  | y :: l' =>
      if text_leb (cust_name x) (cust_name y) then x :: l
      else y :: insert_name_asc x l'
  end.

Fixpoint sort_name_asc (l : list Customer) : list Customer :=
  match l with
  | [] => []
  | x :: l' => insert_name_asc x (sort_name_asc l')
  end.

(** [customer.findMany({ where, select, orderBy: { name: "asc" } })] *)
Definition customer_findMany (st : Store) (p : Customer -> bool)
  : Result (list Customer) :=
  Ok (sort_name_asc (filter p (customer st))).

Definition latest_row (r : Invoice * Customer) : LatestInvoice :=
  let (invoice, customer) := r in
  let selected := {| sel_name := cust_name customer;
                     sel_image_url := cust_image_url customer;
                     sel_email := cust_email customer |} in
  {| latest_amount := formatCurrency (inv_amount invoice);
     latest_id := inv_id invoice;
     latest_customer := selected;
     latest_name := sel_name selected;
     latest_image_url := sel_image_url selected;
     latest_email := sel_email selected |}.

Definition fetchLatestInvoices (st : Store)
  : Completion (list LatestInvoice) :=
  match invoice_findMany_latest st 5 with
  | Ok invoices =>
      let latestInvoices := map latest_row invoices in
      Return latestInvoices
  | Fault _ => Throw (new_Error "Failed to fetch the latest invoices.")
  end.

Definition fetchCardData (st : Store) : Completion CardData :=
  match invoice_count_all st, customer_count st, invoice_groupBy_status st with
  | Ok numberOfInvoices, Ok numberOfCustomers, Ok invoiceStatuses =>
      let totalPaidInvoices :=
        formatCurrency (group_total "paid" invoiceStatuses) in
      let totalPendingInvoices :=
        formatCurrency (group_total "pending" invoiceStatuses) in
      Return {| numberOfCustomers := numberOfCustomers;
                numberOfInvoices := numberOfInvoices;
                totalPaidInvoices := totalPaidInvoices;
                totalPendingInvoices := totalPendingInvoices |}
  | _, _, _ => Throw (new_Error "Failed to fetch card data.")
  end.

Definition formatted_customer (customer : CustomerRow)
  : FormattedCustomersTable :=
  let total_pending := total_with_status "pending" (row_invoices customer) in
  let total_paid := total_with_status "paid" (row_invoices customer) in
  {| fc_id := row_id customer;
     fc_name := row_name customer;
     fc_email := row_email customer;
     fc_image_url := row_image_url customer;
     fc_total_invoices := row_count_invoices customer;
     fc_total_pending := formatCurrency total_pending;
     fc_total_paid := formatCurrency total_paid |}.

Definition fetchFilteredCustomers (st : Store) (query : string)
  : Completion (list FormattedCustomersTable) :=
  match customer_findMany st (customer_where query) with
  | Ok customers =>
      let formattedCustomers :=
        map (fun c => formatted_customer (customer_row st c)) customers in
      Return formattedCustomers
  | Fault _ => Throw (new_Error "Failed to fetch customer table.")
  end.

Definition fetchCustomers (st : Store) : Completion (list CustomerField) :=
  match customer_findMany st (fun _ => true) with
  | Ok customers =>
      Return (map (fun c => {| field_id := cust_id c;
                               field_name := cust_name c |}) customers)
  | Fault _ => Throw (new_Error "Failed to fetch all customers.")
  end.

End Externals.

(** [getUser] reads the users table through the SQL client:
    [SELECT * from USERS where email = ...], then [rows[0]]. *)
Definition getUser (users : list User) (email : string)
  : Completion (option User) :=
  let rows := filter (fun u => String.eqb (user_email u) email) users in
  Return (hd_error rows).

End Queries.

(* ================================================================== *)
(** ** The seed script

    Each function upserts the rows of a fixture, one after the other; an
    upsert of a key that is present has [update: {}] and changes nothing.
    A fault ends the run. *)
Module Seed.

Definition with_customers (st : Store) (l : list Customer) : Store :=
  {| customer := l; invoice := invoice st; revenue := revenue st |}.


(** [customer.upsert({ where: { email }, update: {}, create: { id, name,
    email, image_url } })] *)
Definition customer_upsert (st : Store) (c : Customer) : Result Store :=
  if existsb (fun x => String.eqb (cust_email x) (cust_email c)) (customer st)
  then Ok st
  else if existsb (fun x => String.eqb (cust_id x) (cust_id c)) (customer st)
  then Fault UniqueViolation
  else Ok (with_customers st (customer st ++ [c])).

Fixpoint seedCustomers (customers : list Customer) (st : Store)
  : Result Store :=
  match customers with
  | [] => Ok st
  | c :: rest => bind (customer_upsert st c) (seedCustomers rest)
  end.







End Seed.

(* ================================================================== *)
(** ** Readings of further properties *)

(** A consistent store: every invoice names a customer, and no two
    invoices share an id. *)
Definition store_ok (st : Store) : Prop :=
  fk_ok st = true /\ NoDup (map inv_id (invoice st)).

(** One call of an invoice action. *)
Variant Call :=
  | call_create (env : Env) (prevState : State) (formData : FormData)
  | call_update (id : string) (prevState : State) (formData : FormData)
  | call_delete (id : string).

Definition run (w : World) (c : Call) : World :=
  match c with
  | call_create env prevState formData =>
      snd (createInvoice env prevState formData w)
  | call_update id prevState formData =>
      snd (updateInvoice id prevState formData w)
  | call_delete id => snd (deleteInvoice id w)
  end.

Definition name_asc (text_leb : string -> string -> bool) (a b : Customer)
  : Prop :=
  text_leb (cust_name a) (cust_name b) = true.

(** Of two texts, one comes no later than the other. *)
Definition total_order (text_leb : string -> string -> bool) : Prop :=
  forall a b, text_leb a b = true \/ text_leb b a = true.

(** The sum of the amounts of the invoices of a status. *)
Definition sum_of_status (status : string) (l : list Invoice) : Z :=
  fold_right (fun i acc => inv_amount i + acc) 0
    (filter (fun i => String.eqb (inv_status i) status) l).

Definition has_email (e : string) (st : Store) : bool :=
  existsb (fun x => String.eqb (cust_email x) e) (customer st).



Module Fixture.

Definition carol : Customer :=
  {| cust_id := "c3"; cust_name := "Carol Diaz";
     cust_email := "carol@example.com"; cust_image_url := "/carol.png" |}.

Definition users : list Queries.User :=
  [ {| Queries.user_id := "u1"; Queries.user_name := "User";
       Queries.user_email := "user@nextmail.com";
       Queries.user_password := "$2b$10$hash1" |};
    {| Queries.user_id := "u2"; Queries.user_name := "Other";
       Queries.user_email := "other@nextmail.com";
       Queries.user_password := "$2b$10$hash2" |} ].



(** A stand-in for [formatCurrency] in the examples: cents as dollars,
    without grouping of thousands. *)
Definition dollars (cents : Z) : string :=
  let digit (d : Z) : string :=
    String (ascii_of_nat (48 + Z.to_nat d)) "" in
  let fix whole (fuel : nat) (n : Z) : string :=
    match fuel with
    | O => ""
    | S fuel' =>
        if n <? 10 then digit n
        else whole fuel' (n / 10) ++ digit (n mod 10)
    end in
  "$" ++ whole 20%nat (cents / 100) ++ "."
      ++ digit (cents mod 100 / 10) ++ digit (cents mod 10).

End Fixture.

(* ================================================================== *)
(** ** Properties *)

(** *** The model on small inputs *)

Example Number_readings :
  JS.Number "" = JS.pzero
  /\ JS.Number " 30 " = JS.of_Z 30
  /\ JS.Number "0x1F" = JS.of_Z 31
  /\ JS.Number "1e3" = JS.of_Z 1000
  /\ JS.Number "-Infinity" = S754_infinity true
  /\ JS.Number "pend" = JS.NaN
  /\ JS.Number "12px" = JS.NaN
  /\ JS.Number "2024-01-02" = JS.NaN
  /\ JS.to_integer (JS.Number "1.5") = None.
Proof. vm_compute. repeat split. Qed.

(** The query "30" selects the invoice of amount 30 through the amount
    entry alone; "pend" selects the pending invoice through its status. *)
Example query_30_and_pend :
  invoice_matching Sample.store (invoice_where "30") = Ok [Sample.i1]
  /\ invoice_matching Sample.store (invoice_where "pend") = Ok [Sample.i1]
  /\ invoice_matching Sample.store (invoice_where "STONE") = Ok [Sample.i2]
  /\ invoice_matching Sample.store (invoice_where "2024-02-01")
     = Ok [Sample.i3]
  /\ invoice_matching Sample.store (invoice_where "1.5")
     = Fault ValidationError.
Proof. vm_compute. repeat split. Qed.

Example ledger_pages :
  fetchInvoicesPages Sample.ledger "" = Return 2
  /\ (exists page, fetchFilteredInvoices Sample.ledger "" 1 = Return page
                   /\ map id page = ["b2"; "b4"; "b6"; "b8"; "b1"; "b5"])
  /\ (exists page, fetchFilteredInvoices Sample.ledger "" 2 = Return page
                   /\ map id page = ["b7"; "b3"])
  /\ fetchFilteredInvoices Sample.ledger "" 3 = Return [].
Proof.
  split; [reflexivity|]. split; [|split]; try reflexivity;
    eexists; (split; [vm_compute; reflexivity|reflexivity]).
Qed.

Example create_then_read :
  let (outcome, w) :=
    createInvoice Sample.env Sample.no_state (Sample.form "c2" "12.5" "paid")
      Sample.world in
  outcome = Redirect "/dashboard/invoices"
  /\ revalidated w = ["/dashboard/invoices"]
  /\ fetchInvoiceById (db w) "i4"
     = Return (Some {| form_id := "i4"; form_customer_id := "c2";
                       form_amount := JS.Number "12.5";
                       form_status := "paid" |}).
Proof. vm_compute. repeat split. Qed.

(** *** Strings *)

Lemma prefix_occurs (a b : string) :
  String.prefix a b = true <-> exists rest, b = a ++ rest.
Proof.
  revert b. induction a as [|c a IH]; intros b; simpl.
  - split; [intros _; now exists b | intros _; now destruct b].
  - destruct b as [|d b].
    + split; [discriminate | intros [rest H]; discriminate].
    + cbn [String.prefix]. destruct (ascii_dec c d) as [->|Hne].
      * rewrite IH. split; intros [rest H]; exists rest.
        -- now rewrite H.
        -- now inversion H.
      * split; [discriminate | intros [rest H]; inversion H; congruence].
Qed.

Lemma includes_occurs (needle hay : string) :
  JS.includes needle hay = true <-> occurs needle hay.
Proof.
  induction hay as [|c hay IH].
  - cbn [JS.includes]. destruct (String.prefix needle "") eqn:Hp.
    + split; [intros _|reflexivity].
      apply prefix_occurs in Hp as [rest H]. now exists "", rest.
    + split; [discriminate|intros [before [after H]]].
      destruct before; [|discriminate].
      assert (String.prefix needle "" = true)
        by (apply prefix_occurs; now exists after).
      congruence.
  - cbn [JS.includes]. destruct (String.prefix needle (String c hay)) eqn:Hp.
    + split; [intros _|reflexivity].
      apply prefix_occurs in Hp as [rest H]. now exists "", rest.
    + rewrite IH. split.
      * intros [before [after H]]. exists (String c before), after.
        simpl. now rewrite H.
      * intros [before [after H]]. destruct before as [|d before].
        -- assert (String.prefix needle (String c hay) = true)
             by (apply prefix_occurs; now exists after).
           congruence.
        -- inversion H. now exists before, after.
Qed.

(** *** deleteInvoice *)

Lemma remove_row_absent (id : string) (l : list Invoice) :
  existsb (has_id id) l = false -> remove_row id l = None.
Proof.
  induction l as [|i l IH]; simpl; [reflexivity|].
  destruct (has_id id i); simpl; [discriminate|].
  intros H. now rewrite (IH H).
Qed.

(** C5. Deleting an id that no invoice carries returns the state
    [{ message: "Database Error: Failed to Delete Invoice." }]; the store
    is as before and no path has been revalidated. The result is a
    returned value: the action has no other way to end. *)
Theorem deleteInvoice_absent_id (id : string) (w : World) :
  existsb (has_id id) (invoice (db w)) = false ->
  let (result, w') := deleteInvoice id w in
  result = Some {| errors := None;
                   state_message :=
                     Some "Database Error: Failed to Delete Invoice." |}
  /\ db w' = db w
  /\ revalidated w' = revalidated w.
Proof.
  intros Habsent. unfold deleteInvoice, invoice_delete.
  rewrite (remove_row_absent _ _ Habsent). repeat split.
Qed.

Lemma deleteInvoice_absent_id_witness :
  existsb (has_id "i7") (invoice (db Sample.world)) = false
  /\ deleteInvoice "i7" Sample.world
     = (Some {| errors := None;
                state_message :=
                  Some "Database Error: Failed to Delete Invoice." |},
        Sample.world).
Proof.
  split; [reflexivity|].
  pose proof (deleteInvoice_absent_id "i7" Sample.world eq_refl) as H.
  destruct (deleteInvoice "i7" Sample.world) as [r w'].
  destruct H as [-> [Hdb Hrev]]. destruct w'; simpl in *.
  now rewrite Hdb, Hrev.
Defined.

(** *** authenticate *)

(** C6. When the provider rejects with an error whose message contains
    "CredentialsSignin", [authenticate] returns "CredentialSignin"; when it
    rejects with any other error, [authenticate] throws that error. *)
Theorem authenticate_rejected (signIn : Provider) (prevState : option string)
    (formData : FormData) (error : Error) :
  signIn "credentials" (fromEntries formData) = rejected error ->
  (occurs "CredentialsSignin" (message error) ->
   authenticate signIn prevState formData = Return (Some "CredentialSignin"))
  /\ (~ occurs "CredentialsSignin" (message error) ->
      authenticate signIn prevState formData = Throw error).
Proof.
  intros Hrej. unfold authenticate. rewrite Hrej.
  destruct (JS.includes "CredentialsSignin" (message error)) eqn:Hinc.
  - split; [reflexivity|]. intros Hno. exfalso.
    apply Hno. now apply includes_occurs.
  - split; [|reflexivity]. intros Hocc.
    apply includes_occurs in Hocc. congruence.
Qed.

Lemma authenticate_rejected_witness :
  authenticate (Sample.refuse "Read more: CredentialsSignin.") None
    [("email", "user@nextmail.com"); ("password", "123456")]
  = Return (Some "CredentialSignin").
Proof.
  apply (authenticate_rejected
           (Sample.refuse "Read more: CredentialsSignin.") None
           [("email", "user@nextmail.com"); ("password", "123456")]
           (new_Error "Read more: CredentialsSignin.") eq_refl).
  now exists "Read more: ", ".".
Defined.

(** *** fetchRevenue *)

(** C7, as it is written, fails: the rows come back in the order of the
    table. For a table holding Feb, Mar, Jan in that order the result is
    neither in ascending nor in descending order of the month key, nor in
    the order of the calendar. *)
Lemma fetchRevenue_not_ordered :
  fetchRevenue Sample.store = Return (revenue Sample.store)
  /\ ~ Sorted month_asc (revenue Sample.store)
  /\ ~ Sorted month_desc (revenue Sample.store)
  /\ ~ Sorted month_calendar (revenue Sample.store).
Proof.
  split; [reflexivity|]. repeat split; intros H.
  - apply Sorted_inv in H as [H _]. apply Sorted_inv in H as [_ H].
    inversion H as [|? ? Hle]. discriminate Hle.
  - apply Sorted_inv in H as [_ H].
    inversion H as [|? ? Hle]. discriminate Hle.
  - apply Sorted_inv in H as [H _]. apply Sorted_inv in H as [_ H].
    inversion H as [|? ? Hle]. unfold month_calendar in Hle.
    vm_compute in Hle. lia.
Qed.

(** C7, amended. [fetchRevenue] returns every row of the revenue table, in
    the order the table holds them. *)
Theorem fetchRevenue_table_order (st : Store) :
  fetchRevenue st = Return (revenue st).
Proof. reflexivity. Qed.

(** *** fetchInvoicesPages on no match *)

(** C9. When the filter of a query selects no invoice, the page count is 0. *)
Theorem fetchInvoicesPages_no_match (st : Store) (query : string) :
  invoice_matching st (invoice_where query) = Ok [] ->
  fetchInvoicesPages st query = Return 0.
Proof.
  intros Hnone. unfold fetchInvoicesPages, invoice_count.
  rewrite Hnone. reflexivity.
Qed.

Lemma fetchInvoicesPages_no_match_witness :
  invoice_matching Sample.store (invoice_where "zebra") = Ok []
  /\ fetchInvoicesPages Sample.store "zebra" = Return 0.
Proof.
  split; [reflexivity|].
  apply (fetchInvoicesPages_no_match Sample.store "zebra"). reflexivity.
Defined.

(** *** Minor units *)


(** *** Validation *)

Lemma parse_amount_not_positive (input : Zod.field) :
  JS.le (Zod.coerce_number input) JS.pzero = true ->
  Zod.parse_amount input = inr [Zod.amount_message].
Proof.
  unfold Zod.parse_amount. intros Hle. rewrite Hle.
  destruct (Zod.coerce_number input); try reflexivity; discriminate Hle.
Qed.

Lemma parse_status_invalid (input : Zod.field) :
  invalid_status input ->
  Zod.parse_status input
  = inr [match input with
         | None => Zod.status_message
         | Some s => Zod.enum_message s
         end].
Proof.
  intros [Hpending Hpaid]. destruct input as [s|]; [|reflexivity].
  unfold Zod.parse_status.
  destruct (String.eqb_spec s "pending") as [->|_]; [congruence|].
  destruct (String.eqb_spec s "paid") as [->|_]; [congruence|reflexivity].
Qed.

Lemma safeParse_failure (customer_id amount status : Zod.field) :
  (exists l, Zod.parse_amount amount = inr l)
  \/ (exists l, Zod.parse_status status = inr l) ->
  Zod.safeParse customer_id amount status
  = Zod.failure
      {| Zod.customer_id_errors :=
           Zod.issues (Zod.parse_customer_id customer_id);
         Zod.amount_errors := Zod.issues (Zod.parse_amount amount);
         Zod.status_errors := Zod.issues (Zod.parse_status status) |}.
Proof.
  unfold Zod.safeParse. intros [[l H]|[l H]]; rewrite H;
    destruct (Zod.parse_customer_id customer_id);
    try destruct (Zod.parse_amount amount);
    try destruct (Zod.parse_status status); reflexivity.
Qed.

(** C4, as it is written, fails for a status that is a string other than
    "pending" and "paid": the errors then carry the validator's own message
    for an enumeration, not "Please select an invoice status.". *)
Lemma status_message_not_carried :
  invalid_status (get "status" (Sample.form "c1" "10" "overdue"))
  /\ ~ (exists fieldErrors msg l,
          createInvoice Sample.env Sample.no_state
            (Sample.form "c1" "10" "overdue") Sample.world
          = (Returned {| errors := Some fieldErrors; state_message := msg |},
             Sample.world)
          /\ Zod.status_errors fieldErrors = Some l
          /\ In Zod.status_message l).
Proof.
  split; [split; discriminate|].
  intros (fe & msg & l & Hrun & Hl & Hin).
  vm_compute in Hrun. injection Hrun as Hfe _. subst fe.
  vm_compute in Hl. injection Hl as Hl. subst l.
  destruct Hin as [Heq|[]]. discriminate Heq.
Qed.

(** C4, amended. When the amount of a form is <= 0 or its status is not
    exactly "pending" or "paid", [createInvoice] and [updateInvoice] return
    the validation-error state and leave the store and the revalidated paths
    as they were. The errors carry "Please enter an amount greater than $0."
    under amount when the amount is <= 0; under status they carry "Please
    select an invoice status." when the form has no status entry, and the
    validator's enumeration message when the entry is another string. *)
Theorem invalid_invoice_rejected (env : Env) (id : string) (prevState : State)
    (formData : FormData) (w : World) :
  JS.le (Zod.coerce_number (get "amount" formData)) JS.pzero = true
  \/ invalid_status (get "status" formData) ->
  exists fieldErrors,
    createInvoice env prevState formData w
    = (Returned {| errors := Some fieldErrors;
                   state_message :=
                     Some "Missing Fields. Failed to Create Invoice." |}, w)
    /\ updateInvoice id prevState formData w
       = (Returned {| errors := Some fieldErrors;
                      state_message :=
                        Some "Missing Fields. Failed to Update Invoice." |}, w)
    /\ (JS.le (Zod.coerce_number (get "amount" formData)) JS.pzero = true ->
        Zod.amount_errors fieldErrors = Some [Zod.amount_message])
    /\ (invalid_status (get "status" formData) ->
        Zod.status_errors fieldErrors
        = Some [match get "status" formData with
                | None => Zod.status_message
                | Some s => Zod.enum_message s
                end]).
Proof.
  intros Hbad. eexists. unfold createInvoice, updateInvoice.
  rewrite safeParse_failure.
  - repeat split; simpl.
    + intros Hle. now rewrite (parse_amount_not_positive _ Hle).
    + intros Hst. now rewrite (parse_status_invalid _ Hst).
  - destruct Hbad as [Hle|Hst].
    + left. eexists. now apply parse_amount_not_positive.
    + right. eexists. now apply parse_status_invalid.
Qed.

Lemma invalid_invoice_rejected_witness :
  exists fieldErrors,
    createInvoice Sample.env Sample.no_state [("customer_id", "c1");
      ("amount", "-5")] Sample.world
    = (Returned {| errors := Some fieldErrors;
                   state_message :=
                     Some "Missing Fields. Failed to Create Invoice." |},
       Sample.world)
    /\ Zod.amount_errors fieldErrors = Some [Zod.amount_message]
    /\ Zod.status_errors fieldErrors = Some [Zod.status_message].
Proof.
  destruct (invalid_invoice_rejected Sample.env "i1" Sample.no_state
              [("customer_id", "c1"); ("amount", "-5")] Sample.world
              (or_introl eq_refl))
    as (fe & Hcreate & _ & Hamount & Hstatus).
  exists fe. repeat split.
  - exact Hcreate.
  - exact (Hamount eq_refl).
  - apply Hstatus. split; discriminate.
Defined.

(** *** updateInvoice *)

Lemma set_row_spec (id customer_id : string) (cents : Z) (status : string)
    (l l' : list Invoice) :
  set_row id customer_id cents status l = Some l' ->
  exists before row after,
    l = (before ++ row :: after)%list
    /\ inv_id row = id
    /\ existsb (has_id id) before = false
    /\ l' = (before ++
             {| inv_id := inv_id row; inv_customer_id := customer_id;
                inv_amount := cents; inv_status := status;
                inv_date := inv_date row |} :: after)%list.
Proof.
  revert l'. induction l as [|i l IH]; intros l'; simpl; [discriminate|].
  destruct (has_id id i) eqn:Hid.
  - intros [= <-]. exists [], i, l. repeat split.
    now apply String.eqb_eq.
  - destruct (set_row id customer_id cents status l) as [r|]; [|discriminate].
    intros [= <-].
    destruct (IH r eq_refl) as (before & row & after & -> & Hrow & Hb & ->).
    exists (i :: before), row, after. repeat split; simpl; auto.
    now rewrite Hid.
Qed.



(** *** createInvoice *)

Lemma get_without_id_date (name : string) (formData : FormData) :
  name <> "id" -> name <> "date" ->
  get name (without_id_date formData) = get name formData.
Proof.
  intros Hid Hdate. induction formData as [|[k v] rest IH]; [reflexivity|].
  simpl. destruct (String.eqb_spec k name) as [->|Hk].
  - destruct (String.eqb_spec name "id"); [contradiction|].
    destruct (String.eqb_spec name "date"); [contradiction|].
    simpl. now rewrite String.eqb_refl.
  - destruct (String.eqb k "id" || String.eqb k "date"); simpl; [exact IH|].
    destruct (String.eqb_spec k name); [contradiction|exact IH].
Qed.

(** C10. Two forms that differ only in entries named "id" or "date" give
    the same result of [createInvoice] from the same world: the same
    outcome and the same store. When the invoice is created, the new row
    carries the id the store generated and the date of the server's clock
    (the part of its ISO reading before "T"), whatever the form says. *)
Theorem createInvoice_ignores_id_date (env : Env) (prevState : State)
    (form1 form2 : FormData) (w : World) :
  without_id_date form1 = without_id_date form2 ->
  createInvoice env prevState form1 w = createInvoice env prevState form2 w
  /\ (forall url w',
        createInvoice env prevState form1 w = (Redirect url, w') ->
        exists row,
          invoice (db w') = (invoice (db w) ++ [row])%list
          /\ inv_id row = generated_id env
          /\ inv_date row = JS.split_T_0 (now_iso env)).
Proof.
  intros Hsame.
  assert (Hget : forall name, name <> "id" -> name <> "date" ->
                 get name form1 = get name form2).
  { intros name Hid Hdate.
    rewrite <- (get_without_id_date name form1 Hid Hdate).
    rewrite <- (get_without_id_date name form2 Hid Hdate).
    now rewrite Hsame. }
  split.
  - unfold createInvoice.
    rewrite (Hget "customer_id"), (Hget "amount"), (Hget "status");
      (reflexivity || discriminate).
  - intros url w'. unfold createInvoice.
    destruct (Zod.safeParse _ _ _) as [data|fe]; [|discriminate].
    unfold invoice_create.
    destruct (int_arg _) as [cents|e]; [|discriminate]. cbn [bind].
    destruct (negb _); [discriminate|].
    destruct (existsb _ _); [discriminate|].
    intros [= _ <-]. eexists. repeat split.
Qed.

Lemma createInvoice_ignores_id_date_witness :
  let form1 := [("id", "i1"); ("customer_id", "c2"); ("amount", "12.5");
                ("date", "1999-12-31"); ("status", "paid")] in
  let form2 := Sample.form "c2" "12.5" "paid" in
  without_id_date form1 = without_id_date form2
  /\ createInvoice Sample.env Sample.no_state form1 Sample.world
     = createInvoice Sample.env Sample.no_state form2 Sample.world
  /\ exists row,
       invoice (db (snd (createInvoice Sample.env Sample.no_state form1
                           Sample.world)))
       = [Sample.i1; Sample.i2; Sample.i3; row]
       /\ inv_id row = "i4" /\ inv_date row = "2024-05-06".
Proof.
  intros form1 form2.
  destruct (createInvoice_ignores_id_date Sample.env Sample.no_state
              form1 form2 Sample.world eq_refl) as [Hsame Hrow].
  split; [reflexivity|]. split; [exact Hsame|].
  destruct (Hrow invoices_path
              (snd (createInvoice Sample.env Sample.no_state form1
                      Sample.world)) eq_refl) as (row & Hinv & Hid & Hdate).
  exists row. repeat split; assumption.
Defined.

(** *** The invoice filter *)

Lemma on_customer_occurs (st : Store) (query : string)
    (field : Customer -> string) (i : Invoice) :
  on_customer st (fun c => string_matches (insensitive query) (field c)) i
  = true
  <-> exists c, customer_of st i = Some c /\ occurs_nocase query (field c).
Proof.
  unfold on_customer, occurs_nocase, insensitive. cbn [string_matches].
  destruct (customer_of st i) as [c|].
  - rewrite includes_occurs. split.
    + intros H. now exists c.
    + now intros (c' & [= <-] & H).
  - split; [discriminate|now intros (c & H & _)].
Qed.


Lemma text_pred_match (st : Store) (query : string) (i : Invoice) :
  text_pred st query i = true <-> text_match st query i.
Proof.
  unfold text_pred, text_match.
  rewrite !orb_true_iff, !on_customer_occurs.
  unfold insensitive. cbn [string_matches].
  rewrite String.eqb_eq, includes_occurs. fold (occurs_nocase query (inv_status i)).
  split.
  - intros [(c & Hc & H)|[(c & Hc & H)|[H|[H|H]]]].
    + left. exists c. auto.
    + left. exists c. auto.
    + right. now left.
    + right. now right.
    + discriminate.
  - intros [(c & Hc & [H|H])|[H|H]].
    + left. now exists c.
    + right. left. now exists c.
    + right. right. now left.
    + right. right. right. now left.
Qed.

(** *** Ordering by date *)

Lemma insert_desc_perm (x : Invoice) (l : list Invoice) :
  Permutation (insert_desc x l) (x :: l).
Proof.
  induction l as [|y l IH]; simpl; [reflexivity|].
  destruct (String.ltb (inv_date x) (inv_date y)); [|reflexivity].
  rewrite IH. apply perm_swap.
Qed.

Lemma sort_date_desc_perm (l : list Invoice) :
  Permutation (sort_date_desc l) l.
Proof.
  induction l as [|x l IH]; simpl; [reflexivity|].
  rewrite insert_desc_perm. now constructor.
Qed.

Lemma ltb_leb (a b : string) : String.ltb a b = true -> String.leb a b = true.
Proof.
  unfold String.ltb, String.leb. now destruct (String.compare a b).
Qed.

Lemma not_ltb_leb (a b : string) :
  String.ltb a b = false -> String.leb b a = true.
Proof.
  unfold String.ltb, String.leb. rewrite (String.compare_antisym a b).
  now destruct (String.compare b a).
Qed.

Lemma insert_desc_hd (x a : Invoice) (l : list Invoice) :
  date_desc a x -> HdRel date_desc a l -> HdRel date_desc a (insert_desc x l).
Proof.
  intros Hax Hal. destruct l as [|y l]; simpl; [now constructor|].
  destruct (String.ltb (inv_date x) (inv_date y)); constructor;
    [now inversion Hal|exact Hax].
Qed.

Lemma insert_desc_sorted (x : Invoice) (l : list Invoice) :
  Sorted date_desc l -> Sorted date_desc (insert_desc x l).
Proof.
  induction l as [|y l IH]; simpl; intros Hs.
  - now repeat constructor.
  - apply Sorted_inv in Hs as [Hs Hhd].
    destruct (String.ltb (inv_date x) (inv_date y)) eqn:Hlt.
    + constructor; [now apply IH|].
      apply insert_desc_hd; [|exact Hhd]. now apply ltb_leb.
    + constructor; [now constructor|]. constructor. now apply not_ltb_leb.
Qed.

Lemma sort_date_desc_sorted (l : list Invoice) :
  Sorted date_desc (sort_date_desc l).
Proof.
  induction l as [|x l IH]; simpl; [constructor|].
  now apply insert_desc_sorted.
Qed.

(** *** The join with the customer *)

Lemma customer_exists_of (st : Store) (i : Invoice) :
  customer_exists st (inv_customer_id i) = true ->
  exists c, customer_of st i = Some c.
Proof.
  unfold customer_exists, customer_of.
  induction (customer st) as [|c l IH]; simpl; [discriminate|].
  destruct (String.eqb (cust_id c) (inv_customer_id i)); [now exists c|].
  exact IH.
Qed.

Lemma include_customer_join (st : Store) (l : list Invoice) :
  (forall i, In i l -> customer_exists st (inv_customer_id i) = true) ->
  include_customer st l = Ok (join_rows st l)
  /\ map fst (join_rows st l) = l
  /\ Forall (joined_in st) (join_rows st l).
Proof.
  induction l as [|i l IH]; intros Hfk.
  - repeat split. constructor.
  - destruct (customer_exists_of st i) as [c Hc]; [apply Hfk; now left|].
    destruct IH as (Hinc & Hfst & Hall); [intros j Hj; apply Hfk; now right|].
    unfold join_rows in *. simpl. rewrite Hc, Hinc. simpl.
    repeat split; [now rewrite Hfst|]. constructor; assumption.
Qed.


Lemma in_firstn (A : Type) (n : nat) (l : list A) (x : A) :
  In x (firstn n l) -> In x l.
Proof.
  intros H. rewrite <- (firstn_skipn n l). apply in_or_app. now left.
Qed.

Lemma in_skipn (A : Type) (n : nat) (l : list A) (x : A) :
  In x (skipn n l) -> In x l.
Proof.
  intros H. rewrite <- (firstn_skipn n l). apply in_or_app. now right.
Qed.


(** *** One page *)




(** *** All the pages *)



Lemma ceil_div_bounds (n : Z) :
  6 * (Math_ceil_div n 6 - 1) < n <= 6 * Math_ceil_div n 6.
Proof.
  unfold Math_ceil_div.
  pose proof (Z.div_mod (- n) 6 ltac:(lia)).
  pose proof (Z.mod_pos_bound (- n) 6 ltac:(lia)). lia.
Qed.




(* ================================================================== *)
(** ** Further properties of the query module *)

(** *** fetchInvoiceById *)



(** *** The invoice filter for a numeric query *)

(** X2. When the query reads as an integer [z] that the Int column takes,
    the filter selects an invoice exactly when one of the text branches
    does or its amount is [z]. *)
Theorem numeric_query_filter (st : Store) (query : string) (z : Z) :
  int_arg (JS.Number query) = Ok z ->
  exists p,
    where_pred st (invoice_where query) = Ok p
    /\ forall i, p i = true <-> (text_match st query i \/ inv_amount i = z).
Proof.
  intros Hint.
  assert (Hnan : JS.isNaN (JS.Number query) = false).
  { destruct (JS.Number query); try reflexivity. discriminate Hint. }
  unfold invoice_where. rewrite Hnan. cbn [where_pred cond_pred bind].
  rewrite Hint. cbn [bind]. eexists. split; [reflexivity|].
  intros i. cbn beta. rewrite <- text_pred_match. unfold text_pred.
  rewrite !orb_true_iff, Z.eqb_eq. tauto.
Qed.

Lemma numeric_query_filter_witness :
  int_arg (JS.Number "1999") = Ok 1999
  /\ exists p,
       where_pred Sample.store (invoice_where "1999") = Ok p
       /\ p Sample.i2 = true.
Proof.
  split; [reflexivity|].
  destruct (numeric_query_filter Sample.store "1999" 1999 eq_refl)
    as (p & Hp & Hiff).
  exists p. split; [exact Hp|]. apply Hiff. now right.
Defined.

(** *** The empty query *)

Lemma filter_all (A : Type) (p : A -> bool) (l : list A) :
  (forall x, p x = true) -> filter p l = l.
Proof.
  intros Hp. induction l as [|x l IH]; simpl; [reflexivity|].
  now rewrite Hp, IH.
Qed.

Lemma includes_empty (hay : string) : JS.includes "" hay = true.
Proof. apply includes_occurs. now exists "", hay. Qed.

(** X3. The empty query selects every invoice: [Number("")] is 0, and the
    empty string occurs in every status. The page count is that of the
    whole table. *)
Theorem empty_query_lists_all (st : Store) :
  invoice_matching st (invoice_where "") = Ok (invoice st)
  /\ fetchInvoicesPages st ""
     = Return (Math_ceil_div (Z.of_nat (List.length (invoice st)))
                 ITEMS_PER_PAGE).
Proof.
  assert (Hall : invoice_matching st (invoice_where "") = Ok (invoice st)).
  { unfold invoice_matching, invoice_where.
    change (JS.Number "") with JS.pzero.
    change (JS.isNaN JS.pzero) with false.
    cbn [where_pred cond_pred bind].
    change (int_arg JS.pzero) with (@Ok Z 0). cbn [bind].
    f_equal. apply filter_all. intros i.
    unfold insensitive. cbn [string_matches JS.toLowerCase].
    rewrite includes_empty. now rewrite !orb_true_r. }
  split; [exact Hall|].
  unfold fetchInvoicesPages, invoice_count. now rewrite Hall.
Qed.

(** *** Pages *)

(** X4. A page number below 1 makes [fetchFilteredInvoices] throw, for
    every store and query: the offset is negative. *)
Theorem page_below_one_throws (st : Store) (query : string)
    (currentPage : Z) :
  currentPage <= 0 ->
  fetchFilteredInvoices st query currentPage
  = Throw (new_Error "Failed to fetch invoices.").
Proof.
  intros Hpage. unfold fetchFilteredInvoices, invoice_findMany, ITEMS_PER_PAGE.
  destruct ((currentPage - 1) * 6 <? 0) eqn:Hneg; [reflexivity|lia].
Qed.

Lemma page_below_one_throws_witness :
  fetchFilteredInvoices Sample.ledger "alice" (-2)
  = Throw (new_Error "Failed to fetch invoices.").
Proof.
  apply (page_below_one_throws Sample.ledger "alice" (-2)). discriminate.
Defined.

Lemma include_customer_rows (st : Store) (l : list Invoice)
    (joined : list (Invoice * Customer)) :
  include_customer st l = Ok joined ->
  map fst joined = l /\ Forall (joined_in st) joined.
Proof.
  revert joined. induction l as [|i l IH]; intros joined; simpl.
  - intros [= <-]. split; constructor.
  - destruct (customer_of st i) as [c|] eqn:Hc; [|discriminate].
    destruct (include_customer st l) as [r|e]; [|discriminate].
    intros [= <-]. destruct (IH r eq_refl) as [Hfst Hall].
    split; [simpl; now rewrite Hfst|]. constructor; assumption.
Qed.

(** X5. A page that is returned has at most six rows, and each is an
    invoice of the store that the filter selects, joined with the customer
    it names. *)
Theorem page_rows_bounded (st : Store) (query : string) (currentPage : Z)
    (rows : list InvoicesTable) :
  fetchFilteredInvoices st query currentPage = Return rows ->
  (List.length rows <= 6)%nat
  /\ exists p,
       where_pred st (invoice_where query) = Ok p
       /\ Forall (fun r => exists i c,
                    In i (invoice st) /\ p i = true
                    /\ customer_of st i = Some c /\ r = table_row (i, c))
                 rows.
Proof.
  unfold fetchFilteredInvoices, invoice_findMany, invoice_matching,
    ITEMS_PER_PAGE.
  destruct ((currentPage - 1) * 6 <? 0); [discriminate|].
  destruct (where_pred st (invoice_where query)) as [p|e]; [|discriminate].
  cbn [bind]. change (Z.to_nat 6) with 6%nat.
  set (window := firstn 6 _).
  destruct (include_customer st window) as [joined|e] eqn:Hj; [|discriminate].
  intros [= <-]. destruct (include_customer_rows _ _ _ Hj) as [Hfst Hall].
  split.
  - rewrite length_map, <- (length_map fst), Hfst. unfold window.
    rewrite length_firstn. lia.
  - exists p. split; [reflexivity|].
    apply Forall_map. rewrite Forall_forall in *. intros [i c] Hin.
    exists i, c. pose proof (Hall _ Hin) as Hc.
    assert (Hi : In i window).
    { rewrite <- Hfst. now apply (in_map fst) in Hin. }
    unfold window in Hi. apply in_firstn, in_skipn in Hi.
    apply (Permutation_in _ (sort_date_desc_perm _)) in Hi.
    apply filter_In in Hi. now repeat split.
Qed.

Lemma page_rows_bounded_witness :
  exists rows,
    fetchFilteredInvoices Sample.ledger "" 2 = Return rows
    /\ (List.length rows <= 6)%nat.
Proof.
  eexists. split; [reflexivity|].
  apply (page_rows_bounded Sample.ledger "" 2 _ eq_refl).
Defined.

(** X6. Past the last page the result is the empty list, not an error. *)
Theorem page_past_last_empty (st : Store) (query : string)
    (matching : list Invoice) (currentPage : Z) :
  invoice_matching st (invoice_where query) = Ok matching ->
  Math_ceil_div (Z.of_nat (List.length matching)) ITEMS_PER_PAGE < currentPage ->
  fetchFilteredInvoices st query currentPage = Return [].
Proof.
  intros Hmatch Hpage.
  pose proof (ceil_div_bounds (Z.of_nat (List.length matching))) as Hb.
  unfold ITEMS_PER_PAGE in Hpage.
  unfold fetchFilteredInvoices, invoice_findMany, ITEMS_PER_PAGE.
  destruct ((currentPage - 1) * 6 <? 0) eqn:Hneg; [lia|].
  rewrite Hmatch. cbn [bind].
  rewrite skipn_all2; [reflexivity|].
  rewrite (Permutation_length (sort_date_desc_perm matching)). lia.
Qed.

Lemma page_past_last_empty_witness :
  invoice_matching Sample.ledger (invoice_where "alice")
  = Ok (invoice Sample.ledger)
  /\ fetchFilteredInvoices Sample.ledger "alice" 3 = Return [].
Proof.
  split; [reflexivity|].
  apply (page_past_last_empty Sample.ledger "alice" (invoice Sample.ledger) 3);
    reflexivity.
Defined.

(* ================================================================== *)
(** ** Further properties of the form actions *)

(** *** What the schema accepts *)

Lemma status_text_inj (s : string) (st : Zod.Status) :
  Zod.parse_status (Some s) = inl st <-> s = Zod.status_text st.
Proof.
  unfold Zod.parse_status.
  destruct (String.eqb_spec s "pending") as [->|Hpending].
  - split; [now intros [= <-]|]. destruct st; [reflexivity|discriminate].
  - destruct (String.eqb_spec s "paid") as [->|Hpaid].
    + split; [now intros [= <-]|]. destruct st; [discriminate|reflexivity].
    + split; [discriminate|]. intros ->. now destruct st.
Qed.

(** X7. The schema accepts a form exactly when it has a customer_id entry,
    its amount reads as a number that is not NaN and is above 0, and its
    status is "pending" or "paid"; the parsed data are those values. *)
Theorem safeParse_success_iff (customer_id amount status : Zod.field)
    (data : Zod.InvoiceData) :
  Zod.safeParse customer_id amount status = Zod.success data
  <-> customer_id = Some (Zod.customer_id data)
      /\ Zod.coerce_number amount = Zod.amount data
      /\ JS.isNaN (Zod.amount data) = false
      /\ JS.le (Zod.amount data) JS.pzero = false
      /\ status = Some (Zod.status_text (Zod.status data)).
Proof.
  unfold Zod.safeParse, Zod.parse_customer_id, Zod.parse_amount.
  destruct data as [c a s]. cbn [Zod.customer_id Zod.amount Zod.status].
  split.
  - destruct customer_id as [cid|]; [|discriminate].
    destruct (JS.isNaN (Zod.coerce_number amount)) eqn:Hnan; [discriminate|].
    destruct (JS.le (Zod.coerce_number amount) JS.pzero) eqn:Hle;
      [discriminate|].
    destruct status as [str|]; [|discriminate].
    destruct (Zod.parse_status (Some str)) as [s'|l] eqn:Hs; [|discriminate].
    intros [= <- <- <-].
    apply status_text_inj in Hs. subst str. now repeat split.
  - intros (-> & Ha & Hnan & Hle & ->). rewrite Ha, Hnan, Hle.
    now destruct s.
Qed.

(** *** How an action ends *)

(** X8. An action that returns a state has written nothing: the store and
    the revalidated paths are as before. [createInvoice] and
    [updateInvoice] otherwise redirect to "/dashboard/invoices", and
    [deleteInvoice] returns nothing, after revalidating that path once. *)
Theorem action_outcomes (env : Env) (id : string) (prevState : State)
    (formData : FormData) (w : World) :
  (match createInvoice env prevState formData w with
   | (Returned _, w') => w' = w
   | (Redirect url, w') =>
       url = "/dashboard/invoices"
       /\ revalidated w' = "/dashboard/invoices" :: revalidated w
   end)
  /\ (match updateInvoice id prevState formData w with
      | (Returned _, w') => w' = w
      | (Redirect url, w') =>
          url = "/dashboard/invoices"
          /\ revalidated w' = "/dashboard/invoices" :: revalidated w
      end)
  /\ (match deleteInvoice id w with
      | (Some _, w') => w' = w
      | (None, w') => revalidated w' = "/dashboard/invoices" :: revalidated w
      end).
Proof.
  unfold createInvoice, updateInvoice, deleteInvoice.
  destruct (Zod.safeParse _ _ _) as [data|fe].
  - destruct (invoice_create _ _ _ _ _ _), (invoice_update _ _ _ _ _),
      (invoice_delete _ _); repeat split.
  - destruct (invoice_delete _ _); repeat split.
Qed.

(** *** Reading back what was written *)




Lemma has_id_refl (i : Invoice) : has_id (inv_id i) i = true.
Proof. apply String.eqb_refl. Qed.

Lemma has_id_other (id : string) (i : Invoice) :
  id <> inv_id i -> has_id id i = false.
Proof. intros H. apply String.eqb_neq. congruence. Qed.





Lemma set_row_absent (id customer_id : string) (cents : Z) (status : string)
    (l : list Invoice) :
  existsb (has_id id) l = false ->
  set_row id customer_id cents status l = None.
Proof.
  induction l as [|i l IH]; simpl; [reflexivity|].
  destruct (has_id id i); simpl; [discriminate|].
  intros H. now rewrite (IH H).
Qed.

(** X11. [updateInvoice] of an id that no invoice carries, with a form the
    schema accepts, returns the database-error state and writes nothing. *)
Theorem updateInvoice_absent_id (id : string) (prevState : State)
    (formData : FormData) (w : World) (data : Zod.InvoiceData) :
  existsb (has_id id) (invoice (db w)) = false ->
  Zod.safeParse (get "customer_id" formData) (get "amount" formData)
    (get "status" formData) = Zod.success data ->
  updateInvoice id prevState formData w
  = (Returned {| errors := None;
                 state_message :=
                   Some "Database Error: Failed to Update Invoice." |}, w).
Proof.
  intros Habsent Hparse. unfold updateInvoice, invoice_update.
  rewrite Hparse. destruct (int_arg _) as [cents|e]; [|reflexivity].
  cbn [bind]. now rewrite (set_row_absent _ _ _ _ _ Habsent).
Qed.

Lemma updateInvoice_absent_id_witness :
  updateInvoice "i9" Sample.no_state (Sample.form "c1" "20" "paid")
    Sample.world
  = (Returned {| errors := None;
                 state_message :=
                   Some "Database Error: Failed to Update Invoice." |},
     Sample.world).
Proof.
  apply (updateInvoice_absent_id "i9" Sample.no_state
           (Sample.form "c1" "20" "paid") Sample.world
           {| Zod.customer_id := "c1"; Zod.amount := JS.Number "20";
              Zod.status := Zod.paid |}); reflexivity.
Defined.

(** *** deleteInvoice of a row that is there *)

Lemma remove_row_spec (id : string) (l l' : list Invoice) :
  remove_row id l = Some l' ->
  exists before row after,
    l = (before ++ row :: after)%list
    /\ inv_id row = id
    /\ existsb (has_id id) before = false
    /\ l' = (before ++ after)%list.
Proof.
  revert l'. induction l as [|i l IH]; intros l'; simpl; [discriminate|].
  destruct (has_id id i) eqn:Hid.
  - intros [= <-]. exists [], i, l. repeat split. now apply String.eqb_eq.
  - destruct (remove_row id l) as [r|]; [|discriminate].
    intros [= <-].
    destruct (IH r eq_refl) as (before & row & after & -> & Hrow & Hb & ->).
    exists (i :: before), row, after. repeat split; simpl; auto.
    now rewrite Hid.
Qed.

Lemma remove_row_present (id : string) (l : list Invoice) :
  existsb (has_id id) l = true -> exists l', remove_row id l = Some l'.
Proof.
  induction l as [|i l IH]; simpl; [discriminate|].
  destruct (has_id id i); simpl; [now eexists|].
  intros H. destruct (IH H) as [l' ->]. now eexists.
Qed.

Lemma existsb_has_id (id : string) (l : list Invoice) :
  existsb (has_id id) l = true <-> In id (map inv_id l).
Proof.
  rewrite existsb_exists, in_map_iff. split.
  - intros (i & Hin & Hid). exists i. split; [|exact Hin].
    now apply String.eqb_eq.
  - intros (i & Hid & Hin). exists i. split; [exact Hin|].
    now apply String.eqb_eq.
Qed.

Lemma not_existsb_has_id (id : string) (l : list Invoice) :
  ~ In id (map inv_id l) -> existsb (has_id id) l = false.
Proof.
  intros Hnot. destruct (existsb (has_id id) l) eqn:H; [|reflexivity].
  now apply existsb_has_id in H.
Qed.

Lemma find_absent (id : string) (l : list Invoice) :
  existsb (has_id id) l = false -> find (has_id id) l = None.
Proof.
  induction l as [|i l IH]; simpl; [reflexivity|].
  destruct (has_id id i); simpl; [discriminate|exact IH].
Qed.

Lemma find_app_skip (id : string) (before after : list Invoice)
    (row : Invoice) :
  has_id id row = false ->
  find (has_id id) (before ++ row :: after)
  = find (has_id id) (before ++ after).
Proof.
  intros Hrow. induction before as [|x l IH]; simpl.
  - now rewrite Hrow.
  - now rewrite IH.
Qed.

(** X12. In a store where ids are unique, [deleteInvoice] of an id that is
    there returns nothing, revalidates the invoices path, and removes one
    row: the id then reads as [null] and every other id reads as before. *)
Theorem deleteInvoice_present (id : string) (w : World) :
  existsb (has_id id) (invoice (db w)) = true ->
  NoDup (map inv_id (invoice (db w))) ->
  let (result, w') := deleteInvoice id w in
  result = None
  /\ revalidated w' = invoices_path :: revalidated w
  /\ S (List.length (invoice (db w'))) = List.length (invoice (db w))
  /\ fetchInvoiceById (db w') id = Return None
  /\ forall id', id' <> id ->
                 fetchInvoiceById (db w') id' = fetchInvoiceById (db w) id'.
Proof.
  intros Hpresent Hnodup. unfold deleteInvoice, invoice_delete.
  destruct (remove_row_present _ _ Hpresent) as [l' Hrm]. rewrite Hrm.
  destruct (remove_row_spec _ _ _ Hrm)
    as (before & row & after & Hl & Hrow & Hb & ->).
  cbn [db invoice with_invoices revalidatePath revalidated].
  rewrite Hl in *. repeat split.
  - rewrite !length_app. simpl. lia.
  - unfold fetchInvoiceById, invoice_findUnique. cbn [invoice with_invoices].
    rewrite find_absent; [reflexivity|].
    apply not_existsb_has_id. rewrite <- Hrow.
    rewrite map_app in *. simpl in Hnodup.
    now apply NoDup_remove_2 in Hnodup.
  - intros id' Hid'. unfold fetchInvoiceById, invoice_findUnique.
    cbn [invoice with_invoices]. rewrite Hl.
    rewrite find_app_skip; [reflexivity|]. apply has_id_other. congruence.
Qed.

Lemma deleteInvoice_present_witness :
  let w' := snd (deleteInvoice "i2" Sample.world) in
  deleteInvoice "i2" Sample.world = (None, w')
  /\ invoice (db w') = [Sample.i1; Sample.i3]
  /\ fetchInvoiceById (db w') "i2" = Return None.
Proof.
  intros w'.
  assert (Hnodup : NoDup (map inv_id (invoice (db Sample.world)))).
  { repeat constructor; simpl; intuition discriminate. }
  pose proof (deleteInvoice_present "i2" Sample.world eq_refl Hnodup) as H.
  change (deleteInvoice "i2" Sample.world)
    with (@None State, w') in H.
  destruct H as (_ & _ & _ & Hget & _).
  split; [reflexivity|]. split; [reflexivity|exact Hget].
Defined.

(** *** What every run of actions keeps *)

Lemma fk_ok_forall (st : Store) :
  fk_ok st = true
  <-> forall i, In i (invoice st) ->
                customer_exists st (inv_customer_id i) = true.
Proof. unfold fk_ok. apply forallb_forall. Qed.

Lemma invoice_create_ok (new_id : string) (st st' : Store)
    (customer_id : string) (amount : JS.number) (status date : string) :
  invoice_create new_id st customer_id amount status date = Ok st' ->
  store_ok st -> store_ok st'.
Proof.
  unfold invoice_create. destruct (int_arg amount) as [cents|e];
    [|discriminate]. cbn [bind].
  destruct (customer_exists st customer_id) eqn:Hc; [|discriminate].
  destruct (existsb (has_id new_id) (invoice st)) eqn:Hfresh; [discriminate|].
  cbn [negb]. intros [= <-] [Hfk Hnodup]. split.
  - apply fk_ok_forall. intros i Hin. cbn [invoice with_invoices] in Hin.
    apply in_app_or in Hin as [Hin|[<-|[]]].
    + now apply (proj1 (fk_ok_forall st) Hfk).
    + exact Hc.
  - cbn [invoice with_invoices]. rewrite map_app. simpl.
    apply NoDup_app_remove_l with (l := []). simpl.
    apply Permutation_NoDup with (l := new_id :: map inv_id (invoice st)).
    + apply Permutation_cons_append.
    + constructor; [|exact Hnodup]. intros Hin.
      apply existsb_has_id in Hin. congruence.
Qed.

Lemma invoice_update_ok (st st' : Store) (id customer_id : string)
    (amount : JS.number) (status : string) :
  invoice_update st id customer_id amount status = Ok st' ->
  store_ok st -> store_ok st'.
Proof.
  unfold invoice_update. destruct (int_arg amount) as [cents|e];
    [|discriminate]. cbn [bind].
  destruct (set_row _ _ _ _ _) as [l|] eqn:Hset; [|discriminate].
  destruct (customer_exists st customer_id) eqn:Hc; [|discriminate].
  intros [= <-] [Hfk Hnodup].
  destruct (set_row_spec _ _ _ _ _ _ Hset)
    as (before & row & after & Hl & Hrow & Hb & ->).
  rewrite fk_ok_forall in Hfk. rewrite Hl in Hfk, Hnodup. split.
  - apply fk_ok_forall. intros i Hin. cbn [invoice with_invoices] in Hin.
    apply in_app_or in Hin as [Hin|[<-|Hin]].
    + apply Hfk, in_or_app. now left.
    + exact Hc.
    + apply Hfk, in_or_app. right. now right.
  - cbn [invoice with_invoices]. now rewrite map_app in *.
Qed.

Lemma invoice_delete_ok (st st' : Store) (id : string) :
  invoice_delete st id = Ok st' -> store_ok st -> store_ok st'.
Proof.
  unfold invoice_delete.
  destruct (remove_row id (invoice st)) as [l|] eqn:Hrm; [|discriminate].
  intros [= <-] [Hfk Hnodup].
  destruct (remove_row_spec _ _ _ Hrm)
    as (before & row & after & Hl & Hrow & Hb & ->).
  rewrite fk_ok_forall in Hfk. rewrite Hl in Hfk, Hnodup. split.
  - apply fk_ok_forall. intros i Hin. cbn [invoice with_invoices] in Hin.
    apply Hfk, in_or_app. apply in_app_or in Hin as [Hin|Hin].
    + now left.
    + right. now right.
  - cbn [invoice with_invoices]. rewrite map_app in *. simpl in Hnodup.
    now apply NoDup_remove_1 in Hnodup.
Qed.

Lemma run_ok (w : World) (c : Call) :
  store_ok (db w) -> store_ok (db (run w c)).
Proof.
  intros Hok. destruct c as [env prevState formData|id prevState formData|id];
    cbn [run]; unfold createInvoice, updateInvoice, deleteInvoice.
  - destruct (Zod.safeParse _ _ _) as [data|fe]; [|exact Hok].
    destruct (invoice_create _ _ _ _ _ _) as [st'|e] eqn:Hop; [|exact Hok].
    exact (invoice_create_ok _ _ _ _ _ _ _ Hop Hok).
  - destruct (Zod.safeParse _ _ _) as [data|fe]; [|exact Hok].
    destruct (invoice_update _ _ _ _ _) as [st'|e] eqn:Hop; [|exact Hok].
    exact (invoice_update_ok _ _ _ _ _ _ Hop Hok).
  - destruct (invoice_delete _ _) as [st'|e] eqn:Hop; [|exact Hok].
    exact (invoice_delete_ok _ _ _ Hop Hok).
Qed.

(** X13. From a store in which every invoice names a customer and ids are
    unique, any sequence of [createInvoice], [updateInvoice] and
    [deleteInvoice] calls, with any forms and ids, leads to a store of
    which the same holds. *)
Theorem actions_keep_store_ok (calls : list Call) (w : World) :
  store_ok (db w) -> store_ok (db (fold_left run calls w)).
Proof.
  revert w. induction calls as [|c calls IH]; intros w Hok; [exact Hok|].
  simpl. apply IH. now apply run_ok.
Qed.

Lemma actions_keep_store_ok_witness :
  let calls :=
    [ call_create Sample.env Sample.no_state (Sample.form "c2" "7" "paid");
      call_update "i1" Sample.no_state (Sample.form "c9" "7" "paid");
      call_delete "i3";
      call_create Sample.env Sample.no_state (Sample.form "c1" "8" "paid") ] in
  map inv_id (invoice (db (fold_left run calls Sample.world)))
  = ["i1"; "i2"; "i4"]
  /\ store_ok (db (fold_left run calls Sample.world)).
Proof.
  intros calls. split; [reflexivity|].
  apply (actions_keep_store_ok calls Sample.world).
  split; [reflexivity|]. repeat constructor; simpl; intuition discriminate.
Defined.

Lemma run_frame (w : World) (c : Call) :
  customer (db (run w c)) = customer (db w)
  /\ revenue (db (run w c)) = revenue (db w)
  /\ incl (revalidated (run w c)) (invoices_path :: revalidated w).
Proof.
  destruct c as [env prevState formData|id prevState formData|id];
    cbn [run]; unfold createInvoice, updateInvoice, deleteInvoice.
  - destruct (Zod.safeParse _ _ _) as [data|fe];
      [|repeat split; apply incl_tl, incl_refl].
    unfold invoice_create. destruct (int_arg _);
      [|repeat split; apply incl_tl, incl_refl]. cbn [bind].
    destruct (negb _); [repeat split; apply incl_tl, incl_refl|].
    destruct (existsb _ _); repeat split;
      (apply incl_refl || apply incl_tl, incl_refl).
  - destruct (Zod.safeParse _ _ _) as [data|fe];
      [|repeat split; apply incl_tl, incl_refl].
    unfold invoice_update. destruct (int_arg _);
      [|repeat split; apply incl_tl, incl_refl]. cbn [bind].
    destruct (set_row _ _ _ _ _);
      [|repeat split; apply incl_tl, incl_refl].
    destruct (customer_exists _ _); repeat split;
      (apply incl_refl || apply incl_tl, incl_refl).
  - unfold invoice_delete. destruct (remove_row _ _); repeat split;
      (apply incl_refl || apply incl_tl, incl_refl).
Qed.

(** X14. No sequence of invoice actions touches the customer or revenue
    tables, and the only path such a sequence ever revalidates is
    "/dashboard/invoices". *)
Theorem actions_frame (calls : list Call) (w : World) :
  customer (db (fold_left run calls w)) = customer (db w)
  /\ revenue (db (fold_left run calls w)) = revenue (db w)
  /\ forall path, In path (revalidated (fold_left run calls w)) ->
                  path = "/dashboard/invoices" \/ In path (revalidated w).
Proof.
  revert w. induction calls as [|c calls IH]; intros w.
  - repeat split. intros path Hin. now right.
  - simpl. destruct (IH (run w c)) as (Hc & Hr & Hp).
    destruct (run_frame w c) as (Hc' & Hr' & Hp').
    repeat split; [congruence|congruence|]. intros path Hin.
    destruct (Hp path Hin) as [->|Hin']; [now left|].
    destruct (Hp' path Hin') as [<-|Hin'']; [now left|now right].
Qed.

(* ================================================================== *)
(** ** Properties of the remaining queries *)

(** *** The order of strings *)

Lemma ascii_compare_refl (c : ascii) : Ascii.compare c c = Eq.
Proof. apply N.compare_refl. Qed.

Lemma ascii_compare_lt_trans (x y z : ascii) :
  Ascii.compare x y = Lt -> Ascii.compare y z = Lt -> Ascii.compare x z = Lt.
Proof.
  unfold Ascii.compare. rewrite !N.compare_lt_iff. apply N.lt_trans.
Qed.

Lemma string_leb_trans (a b c : string) :
  String.leb a b = true -> String.leb b c = true -> String.leb a c = true.
Proof.
  unfold String.leb. revert b c.
  induction a as [|x a IH]; intros [|y b] [|z c]; simpl; try easy.
  destruct (Ascii.compare x y) eqn:Hxy; [| |discriminate];
    (destruct (Ascii.compare y z) eqn:Hyz; [| |discriminate]).
  - apply Ascii.compare_eq_iff in Hxy, Hyz. subst.
    rewrite ascii_compare_refl. apply IH.
  - apply Ascii.compare_eq_iff in Hxy. subst. now rewrite Hyz.
  - apply Ascii.compare_eq_iff in Hyz. subst. now rewrite Hxy.
  - now rewrite (ascii_compare_lt_trans _ _ _ Hxy Hyz).
Qed.

Lemma date_desc_trans (a b c : Invoice) :
  date_desc a b -> date_desc b c -> date_desc a c.
Proof.
  unfold date_desc. intros Hab Hbc. exact (string_leb_trans _ _ _ Hbc Hab).
Qed.

Lemma sort_date_desc_strongly (l : list Invoice) :
  StronglySorted date_desc (sort_date_desc l).
Proof.
  apply Sorted_StronglySorted; [|apply sort_date_desc_sorted].
  intros a b c. apply date_desc_trans.
Qed.

Lemma strongly_sorted_split (A : Type) (R : A -> A -> Prop) (k : nat)
    (l : list A) :
  StronglySorted R l ->
  StronglySorted R (firstn k l)
  /\ forall a b, In a (firstn k l) -> In b (skipn k l) -> R a b.
Proof.
  revert k. induction l as [|x l IH]; intros k Hs.
  - destruct k; simpl; split; (constructor || now intros a b []).
  - destruct k as [|k]; simpl.
    + split; [constructor|now intros a b []].
    + apply StronglySorted_inv in Hs as [Hs Hx].
      destruct (IH k Hs) as [Hfirst Hcross]. split.
      * constructor; [exact Hfirst|].
        rewrite Forall_forall in *. intros y Hy. apply Hx.
        now apply in_firstn in Hy.
      * intros a b [<-|Ha] Hb.
        -- rewrite Forall_forall in Hx. apply Hx. now apply in_skipn in Hb.
        -- now apply Hcross.
Qed.

(** *** fetchLatestInvoices *)

(** X15. In a store where every invoice names a customer,
    [fetchLatestInvoices] returns the five latest invoices (all of them
    when there are fewer), latest first, with their amounts formatted: no
    invoice left out is dated after one that is returned. *)
Theorem fetchLatestInvoices_latest_five (formatCurrency : Z -> string)
    (st : Store) :
  fk_ok st = true ->
  exists rows chosen rest,
    Queries.fetchLatestInvoices formatCurrency st = Return rows
    /\ map Queries.latest_id rows = map inv_id chosen
    /\ map Queries.latest_amount rows
       = map (fun i => formatCurrency (inv_amount i)) chosen
    /\ Permutation (chosen ++ rest) (invoice st)
    /\ List.length chosen = Nat.min 5 (List.length (invoice st))
    /\ Sorted date_desc chosen
    /\ forall a b, In a chosen -> In b rest -> date_desc a b.
Proof.
  intros Hfk.
  set (sorted := sort_date_desc (invoice st)).
  destruct (include_customer_join st (firstn 5 sorted)) as (Hinc & Hfst & _).
  { intros i Hi. apply (proj1 (fk_ok_forall st) Hfk).
    apply in_firstn in Hi.
    now apply (Permutation_in _ (sort_date_desc_perm _)) in Hi. }
  destruct (strongly_sorted_split _ date_desc 5 sorted
              (sort_date_desc_strongly _)) as [Hfirst Hcross].
  exists (map (Queries.latest_row formatCurrency)
            (join_rows st (firstn 5 sorted))),
    (firstn 5 sorted), (skipn 5 sorted).
  repeat split.
  - unfold Queries.fetchLatestInvoices, Queries.invoice_findMany_latest.
    fold sorted. now rewrite Hinc.
  - rewrite <- Hfst at 2. rewrite !map_map. apply map_ext. now intros [i c].
  - rewrite <- Hfst at 2. rewrite !map_map. apply map_ext. now intros [i c].
  - rewrite firstn_skipn. apply sort_date_desc_perm.
  - rewrite length_firstn. unfold sorted.
    now rewrite (Permutation_length (sort_date_desc_perm _)).
  - now apply StronglySorted_Sorted.
  - exact Hcross.
Qed.

Lemma fetchLatestInvoices_latest_five_witness :
  fk_ok Sample.ledger = true
  /\ exists rows,
       Queries.fetchLatestInvoices Fixture.dollars Sample.ledger = Return rows
       /\ map Queries.latest_id rows = ["b2"; "b4"; "b6"; "b8"; "b1"]
       /\ map Queries.latest_amount rows
          = ["$2.00"; "$4.00"; "$6.00"; "$8.00"; "$1.00"].
Proof.
  split; [reflexivity|].
  destruct (fetchLatestInvoices_latest_five Fixture.dollars Sample.ledger
              eq_refl) as (rows & chosen & rest & Hrun & _).
  exists rows. split; [exact Hrun|].
  vm_compute in Hrun. injection Hrun as <-. split; reflexivity.
Defined.

(** *** fetchCardData *)

Lemma group_total_add (status status' : string) (amount : Z)
    (gs : list Queries.StatusGroup) :
  Queries.group_total status (Queries.add_to_group status' amount gs)
  = Queries.group_total status gs
    + (if String.eqb status' status then amount else 0).
Proof.
  unfold Queries.group_total.
  induction gs as [|g gs IH]; cbn [Queries.add_to_group].
  - cbn. now destruct (String.eqb status' status).
  - destruct (String.eqb_spec (Queries.group_status g) status') as [Hg|Hg];
      cbn [find Queries.group_status].
    + rewrite Hg. destruct (String.eqb status' status);
        cbn [Queries.group_sum_amount]; [|lia].
      destruct (Queries.group_sum_amount g); lia.
    + destruct (String.eqb_spec (Queries.group_status g) status) as [Hs|Hs];
        [|exact IH].
      destruct (String.eqb_spec status' status); [congruence|lia].
Qed.

Lemma group_total_fold (status : string) (l : list Invoice)
    (gs : list Queries.StatusGroup) :
  Queries.group_total status
    (fold_left (fun gs i =>
                  Queries.add_to_group (inv_status i) (inv_amount i) gs) l gs)
  = Queries.group_total status gs + sum_of_status status l.
Proof.
  revert gs. unfold sum_of_status.
  induction l as [|i l IH]; intros gs; simpl; [lia|].
  rewrite IH, group_total_add.
  destruct (String.eqb (inv_status i) status); simpl; lia.
Qed.

(** X16. [fetchCardData] returns the number of customers, the number of
    invoices, and the formatted sums of the amounts of the invoices whose
    status is exactly "paid" and exactly "pending"; a sum over no invoice
    is 0. *)
Theorem fetchCardData_totals (formatCurrency : Z -> string) (st : Store) :
  Queries.fetchCardData formatCurrency st
  = Return {| Queries.numberOfCustomers := List.length (customer st);
              Queries.numberOfInvoices := List.length (invoice st);
              Queries.totalPaidInvoices :=
                formatCurrency (sum_of_status "paid" (invoice st));
              Queries.totalPendingInvoices :=
                formatCurrency (sum_of_status "pending" (invoice st)) |}.
Proof.
  unfold Queries.fetchCardData, Queries.invoice_count_all,
    Queries.customer_count, Queries.invoice_groupBy_status.
  now rewrite !group_total_fold.
Qed.

(** *** fetchCustomers and fetchFilteredCustomers *)

Lemma insert_name_asc_perm (text_leb : string -> string -> bool)
    (x : Customer) (l : list Customer) :
  Permutation (Queries.insert_name_asc text_leb x l) (x :: l).
Proof.
  induction l as [|y l IH]; simpl; [reflexivity|].
  destruct (text_leb (cust_name x) (cust_name y)); [reflexivity|].
  rewrite IH. apply perm_swap.
Qed.

Lemma sort_name_asc_perm (text_leb : string -> string -> bool)
    (l : list Customer) :
  Permutation (Queries.sort_name_asc text_leb l) l.
Proof.
  induction l as [|x l IH]; simpl; [reflexivity|].
  rewrite insert_name_asc_perm. now constructor.
Qed.

Lemma insert_name_asc_hd (text_leb : string -> string -> bool)
    (x a : Customer) (l : list Customer) :
  name_asc text_leb a x -> HdRel (name_asc text_leb) a l ->
  HdRel (name_asc text_leb) a (Queries.insert_name_asc text_leb x l).
Proof.
  intros Hax Hal. destruct l as [|y l]; simpl; [now constructor|].
  destruct (text_leb (cust_name x) (cust_name y)); constructor;
    [exact Hax|now inversion Hal].
Qed.

Lemma sort_name_asc_sorted (text_leb : string -> string -> bool)
    (l : list Customer) :
  total_order text_leb ->
  Sorted (name_asc text_leb) (Queries.sort_name_asc text_leb l).
Proof.
  intros Htotal. induction l as [|x l IH]; simpl; [constructor|].
  induction (Queries.sort_name_asc text_leb l) as [|y s IHs]; simpl.
  - now repeat constructor.
  - apply Sorted_inv in IH as [Hs Hhd].
    destruct (text_leb (cust_name x) (cust_name y)) eqn:Hle.
    + constructor; [now constructor|]. now constructor.
    + constructor; [now apply IHs|].
      apply insert_name_asc_hd; [|exact Hhd].
      destruct (Htotal (cust_name x) (cust_name y)) as [H|H];
        [congruence|exact H].
Qed.

(** X17. [fetchCustomers] returns the id and name of every customer, each
    once, in ascending order of name (in the order the store sorts
    text). *)
Theorem fetchCustomers_sorted (text_leb : string -> string -> bool)
    (st : Store) :
  total_order text_leb ->
  exists ordered,
    Queries.fetchCustomers text_leb st
    = Return (map (fun c => {| Queries.field_id := cust_id c;
                               Queries.field_name := cust_name c |}) ordered)
    /\ Permutation ordered (customer st)
    /\ Sorted (name_asc text_leb) ordered.
Proof.
  intros Htotal. exists (Queries.sort_name_asc text_leb (customer st)).
  repeat split.
  - unfold Queries.fetchCustomers, Queries.customer_findMany.
    now rewrite filter_all.
  - apply sort_name_asc_perm.
  - now apply sort_name_asc_sorted.
Qed.

Lemma fetchCustomers_sorted_witness :
  total_order String.leb
  /\ exists ordered,
       Queries.fetchCustomers String.leb
         (Seed.with_customers Sample.store
            [Fixture.carol; Sample.bob; Sample.alice])
       = Return (map (fun c => {| Queries.field_id := cust_id c;
                                  Queries.field_name := cust_name c |})
                   ordered)
       /\ Permutation ordered [Fixture.carol; Sample.bob; Sample.alice]
       /\ Sorted (name_asc String.leb) ordered.
Proof.
  split; [exact String.leb_total|].
  apply (fetchCustomers_sorted String.leb
           (Seed.with_customers Sample.store
              [Fixture.carol; Sample.bob; Sample.alice])).
  exact String.leb_total.
Defined.

Example fetchCustomers_by_name :
  Queries.fetchCustomers String.leb
    (Seed.with_customers Sample.store
       [Fixture.carol; Sample.bob; Sample.alice])
  = Return [ {| Queries.field_id := "c1";
                Queries.field_name := "Alice Smith" |};
             {| Queries.field_id := "c2";
                Queries.field_name := "Bob Stone" |};
             {| Queries.field_id := "c3";
                Queries.field_name := "Carol Diaz" |} ].
Proof. reflexivity. Qed.




Example fetchFilteredCustomers_smith :
  exists rows,
    Queries.fetchFilteredCustomers Fixture.dollars String.leb Sample.store
      "SMITH" = Return rows
    /\ map Queries.fc_name rows = ["Alice Smith"]
    /\ map Queries.fc_total_invoices rows = [2%nat]
    /\ map Queries.fc_total_pending rows = ["$0.30"]
    /\ map Queries.fc_total_paid rows = ["$5.00"].
Proof. eexists. split; [vm_compute; reflexivity|]. repeat split. Qed.

Example fetchCardData_sample :
  Queries.fetchCardData Fixture.dollars Sample.store
  = Return {| Queries.numberOfCustomers := 2;
              Queries.numberOfInvoices := 3;
              Queries.totalPaidInvoices := "$24.99";
              Queries.totalPendingInvoices := "$0.30" |}
  /\ Queries.fetchCardData Fixture.dollars
       (with_invoices Sample.store [])
     = Return {| Queries.numberOfCustomers := 2;
                 Queries.numberOfInvoices := 0;
                 Queries.totalPaidInvoices := "$0.00";
                 Queries.totalPendingInvoices := "$0.00" |}.
Proof. split; reflexivity. Qed.

(** *** getUser *)

(** X19. [getUser] returns a user of the table whose e-mail is exactly the
    one asked for, and nothing exactly when no user has that e-mail. *)
Theorem getUser_result (users : list Queries.User) (email : string) :
  exists r,
    Queries.getUser users email = Return r
    /\ (forall u, r = Some u -> In u users /\ Queries.user_email u = email)
    /\ (r = None
        <-> forall u, In u users -> Queries.user_email u <> email).
Proof.
  unfold Queries.getUser. eexists. split; [reflexivity|].
  induction users as [|x users IH]; simpl.
  - split; [discriminate|]. split; [now intros _ u []|reflexivity].
  - destruct IH as [IHsome IHnone].
    destruct (String.eqb_spec (Queries.user_email x) email) as [Hx|Hx]; simpl.
    + split.
      * intros u [= <-]. split; [now left|exact Hx].
      * split; [discriminate|]. intros Hnone. now destruct (Hnone x (or_introl eq_refl)).
    + split.
      * intros u Hu. destruct (IHsome u Hu). split; [now right|assumption].
      * rewrite IHnone. split.
        -- intros H u [<-|Hin]; [exact Hx|now apply H].
        -- intros H u Hin. apply H. now right.
Qed.

(* ================================================================== *)
(** ** Properties of the seed script *)

Lemma customer_upsert_spec (st st' : Store) (c : Customer) :
  Seed.customer_upsert st c = Ok st' ->
  (exists added, customer st' = (customer st ++ added)%list)
  /\ invoice st' = invoice st
  /\ revenue st' = revenue st
  /\ has_email (cust_email c) st' = true.
Proof.
  unfold Seed.customer_upsert, has_email.
  destruct (existsb (fun x => String.eqb (cust_email x) (cust_email c))
              (customer st)) eqn:Hemail.
  - intros [= <-]. repeat split; [|exact Hemail].
    exists []. now rewrite app_nil_r.
  - destruct (existsb (fun x => String.eqb (cust_id x) (cust_id c))
                (customer st)); [discriminate|].
    intros [= <-]. repeat split; [now exists [c]|].
    cbn [customer Seed.with_customers]. rewrite existsb_app. simpl.
    now rewrite String.eqb_refl, !orb_true_r.
Qed.

Lemma has_email_grows (e : string) (st st' : Store) (added : list Customer) :
  customer st' = (customer st ++ added)%list ->
  has_email e st = true -> has_email e st' = true.
Proof.
  unfold has_email. intros -> H. now rewrite existsb_app, H.
Qed.

Lemma seedCustomers_spec (l : list Customer) (st st' : Store) :
  Seed.seedCustomers l st = Ok st' ->
  (exists added, customer st' = (customer st ++ added)%list)
  /\ invoice st' = invoice st
  /\ revenue st' = revenue st
  /\ forall c, In c l -> has_email (cust_email c) st' = true.
Proof.
  revert st. induction l as [|c l IH]; intros st; simpl.
  - intros [= <-]. repeat split; [|now intros c []].
    exists []. now rewrite app_nil_r.
  - destruct (Seed.customer_upsert st c) as [st1|e] eqn:Hup; [|discriminate].
    cbn [bind]. intros Hrest.
    destruct (customer_upsert_spec _ _ _ Hup) as ([a1 Ha1] & Hi1 & Hr1 & He1).
    destruct (IH _ Hrest) as ([a2 Ha2] & Hi2 & Hr2 & He2).
    repeat split; try congruence.
    + exists (a1 ++ a2)%list. now rewrite Ha2, Ha1, app_assoc.
    + intros x [<-|Hin]; [|now apply He2].
      exact (has_email_grows _ _ _ _ Ha2 He1).
Qed.

Lemma seedCustomers_present (l : list Customer) (st : Store) :
  (forall c, In c l -> has_email (cust_email c) st = true) ->
  Seed.seedCustomers l st = Ok st.
Proof.
  induction l as [|c l IH]; intros Hall; simpl; [reflexivity|].
  unfold Seed.customer_upsert.
  pose proof (Hall c (or_introl eq_refl)) as Hc. unfold has_email in Hc.
  rewrite Hc. cbn [bind]. apply IH. intros x Hx. apply Hall. now right.
Qed.

(** X20. A run of [seedCustomers] that succeeds only appends customers: the
    rows that were there stay as they were and in place, invoices and
    revenue are untouched, every e-mail of the fixture is then in the
    table, and running it again on the result changes nothing. *)
Theorem seedCustomers_idempotent (customers : list Customer)
    (st st' : Store) :
  Seed.seedCustomers customers st = Ok st' ->
  Seed.seedCustomers customers st' = Ok st'
  /\ (exists added, customer st' = (customer st ++ added)%list)
  /\ invoice st' = invoice st
  /\ revenue st' = revenue st
  /\ forall c, In c customers ->
               exists x, In x (customer st') /\ cust_email x = cust_email c.
Proof.
  intros Hrun.
  destruct (seedCustomers_spec _ _ _ Hrun) as (Hadd & Hi & Hr & He).
  repeat split; try assumption.
  - now apply seedCustomers_present.
  - intros c Hc. specialize (He c Hc). unfold has_email in He.
    apply existsb_exists in He as (x & Hx & Heq). exists x.
    split; [exact Hx|]. now apply String.eqb_eq.
Qed.

Lemma seedCustomers_idempotent_witness :
  Seed.seedCustomers [Sample.bob; Fixture.carol] Sample.store
  = Ok (Seed.with_customers Sample.store
          [Sample.alice; Sample.bob; Fixture.carol])
  /\ Seed.seedCustomers [Sample.bob; Fixture.carol]
       (Seed.with_customers Sample.store
          [Sample.alice; Sample.bob; Fixture.carol])
     = Ok (Seed.with_customers Sample.store
             [Sample.alice; Sample.bob; Fixture.carol]).
Proof.
  split; [reflexivity|].
  apply (seedCustomers_idempotent [Sample.bob; Fixture.carol] Sample.store).
  reflexivity.
Defined.






